(** * Label-sheet geometry and pagination of [avery_labels.py]

    A shallow embedding of [paperless_asn_qr_codes/avery_labels.py]:
    the template catalogue [labelInfo], the renderer class [AveryLabel]
    with its cursor [position], the origin computation [topLeft] and the
    render loops with their page breaks.

    Numbers.  Python [int] is [Z].  Lengths on the drawing surface are
    Python numbers (int or float); they are embedded as exact rationals
    [Q], so rounding of binary floating point is not part of the model.
    An [int * float] product is written [inject_Z n * q].  Python's
    [divmod] on integers is floor division, which is [Z.div] and
    [Z.modulo], except that a zero divisor raises.

    Where a property depends on the arithmetic itself, the geometry is
    given a second time in module [Py], in Python's own numbers:
    unbounded [int] and binary64 [float], with the conversion of an
    [int] that a mixed operation makes, which raises [OverflowError]
    for an [int] beyond the range of [float]. *)

From Stdlib Require Import ZArith QArith Qabs Lia Lqa String List.
From Stdlib Require Floats.PrimFloat Floats.SpecFloat Floats.FloatOps.
From stdpp Require Import gmap strings.
Import ListNotations.

Local Open Scope string_scope.
Local Open Scope list_scope.
Local Open Scope Z_scope.

(** ** Exceptions *)

(** The exceptions the module can raise, and [Raised] for whatever a
    content callable raises on its own. *)
Inductive exn : Type :=
| KeyError (key : string)
| ZeroDivisionError
| AttributeError
| AssertionError
| TypeError
| OverflowError
| Raised (msg : string).

(** A computation that either raises or returns. *)
Definition result (A : Type) : Type := (exn + A)%type.

(** ** Constants of reportlab *)

(** [reportlab.lib.units] and [reportlab.lib.pagesizes] are not part of
    this repository; their constants are given here with the values the
    library defines: [inch = 72.0], [cm = inch / 2.54], [mm = cm * 0.1],
    [LETTER = (8.5 * inch, 11 * inch)], [A4 = (210 * mm, 297 * mm)]. *)
Module units.
Definition inch : Q := 72.
Definition cm : Q := inch / 2.54.
Definition mm : Q := cm * 0.1.
End units.

Module pagesizes.
Definition LETTER : Q * Q := (8.5 * units.inch, 11 * units.inch)%Q.
Definition A4 : Q * Q := (210 * units.mm, 297 * units.mm)%Q.
End pagesizes.

(** ** The template catalogue *)

Module LabelInfo.
(** [@dataclass class LabelInfo]. *)
Record t : Type := mk {
  labels_horizontal : Z;
  labels_vertical : Z;
  label_size : Q * Q;
  gutter_size : Q * Q;
  margin : Q * Q;
  pagesize : Q * Q;
  radius : Q
}.
End LabelInfo.

Import units pagesizes.

(** The entries of the dictionary literal [labelInfo], in source order. *)
Definition labelInfo_items : list (string * LabelInfo.t) :=
  [ ("royalgreen1660",
     LabelInfo.mk 7 22 (25.4 * mm, 9.52 * mm)%Q (2.5 * mm, 2.45 * mm)%Q
       (11.55 * mm, 8.73 * mm)%Q LETTER 3%Q);
    ("averyL4731",
     LabelInfo.mk 7 27 (25.4 * mm, 10 * mm)%Q (2.5 * mm, 0)%Q
       (9 * mm, 13.5 * mm)%Q A4 4%Q);
    ("avery5160",
     LabelInfo.mk 3 10 (187, 72)%Q (11, 0)%Q (14, 36)%Q LETTER 0%Q);
    ("avery5161",
     LabelInfo.mk 2 10 (288, 72)%Q (0, 0)%Q (18, 36)%Q LETTER 0%Q);
    ("avery5163",
     LabelInfo.mk 2 5 (288, 144)%Q (0, 0)%Q (18, 36)%Q LETTER 0%Q);
    ("avery5167",
     LabelInfo.mk 4 20 (1.75 * inch, 0.5 * inch)%Q (0.3 * inch, 0)%Q
       (0.3 * inch, 0.5 * inch)%Q LETTER 0%Q);
    ("avery5371",
     LabelInfo.mk 2 5 (252, 144)%Q (0, 0)%Q (54, 36)%Q LETTER 0%Q) ].

(** [labelInfo: dict[str, LabelInfo]]. *)
Definition labelInfo : gmap string LabelInfo.t := list_to_map labelInfo_items.

(** ** The drawing surface *)

(** The methods of reportlab's canvas that the module calls.  [drawing]
    stands for any other canvas method a content callable may call. *)
Inductive canvas_op : Type :=
| saveState
| restoreState
| translate (x y : Q)
| setLineWidth (w : Q)
| roundRect (x y width height radius : Q)
| doForm (name : string)
| showPage
| save
| setPageCompression (n : Z)
| setLineJoin (n : Z)
| setLineCap (n : Z)
| drawing (what : string).

(** What a canvas has received: a method call made by the renderer, or
    one invocation of the content callable with the calls it made. *)
Inductive entry : Type :=
| call (op : canvas_op)
| content (ops : list canvas_op).

(** [canvas.Canvas(filename, pagesize=...)]: the sink is its file name,
    its page size and the record of what it received, the most recent
    entry first. *)
Record Canvas : Type := mkCanvas {
  filename : string;
  canvas_pagesize : Q * Q;
  log : list entry
}.

(** The attribute [self.canvas]: not set before [open], a canvas after
    it, [None] after [close]. *)
Inductive canvas_attr : Type :=
| Unset
| PyNone
| Live (c : Canvas).

(** ** The renderer object *)

(** The attributes [__init__] sets, and [canvas]. *)
Record AveryLabel : Type := mkAveryLabel {
  across : Z;
  down : Z;
  size : Q * Q;
  labelsep : Q * Q;
  gutter : Q;
  margins : Q * Q;
  topDown : bool;
  debug : bool;
  radius : Q;
  pagesize : Q * Q;
  position : Z;
  canvas : canvas_attr
}.

Definition set_position (v : Z) (s : AveryLabel) : AveryLabel :=
  mkAveryLabel (across s) (down s) (size s) (labelsep s) (gutter s)
    (margins s) (topDown s) (debug s) (radius s) (pagesize s) v (canvas s).

Definition set_canvas (v : canvas_attr) (s : AveryLabel) : AveryLabel :=
  mkAveryLabel (across s) (down s) (size s) (labelsep s) (gutter s)
    (margins s) (topDown s) (debug s) (radius s) (pagesize s) (position s) v.

(** One keyword argument of [__init__(self, label, debug, **kwargs)],
    for the attributes the class reads. *)
Inductive kwarg : Type :=
| kw_across (v : Z)
| kw_down (v : Z)
| kw_size (v : Q * Q)
| kw_labelsep (v : Q * Q)
| kw_gutter (v : Q)
| kw_margins (v : Q * Q)
| kw_topDown (v : bool)
| kw_debug (v : bool)
| kw_radius (v : Q)
| kw_pagesize (v : Q * Q)
| kw_position (v : Z)
| kw_canvas (v : canvas_attr).

Definition setattr (k : kwarg) (s : AveryLabel) : AveryLabel :=
  match k with
  | kw_across v =>
      mkAveryLabel v (down s) (size s) (labelsep s) (gutter s) (margins s)
        (topDown s) (debug s) (radius s) (pagesize s) (position s) (canvas s)
  | kw_down v =>
      mkAveryLabel (across s) v (size s) (labelsep s) (gutter s) (margins s)
        (topDown s) (debug s) (radius s) (pagesize s) (position s) (canvas s)
  | kw_size v =>
      mkAveryLabel (across s) (down s) v (labelsep s) (gutter s) (margins s)
        (topDown s) (debug s) (radius s) (pagesize s) (position s) (canvas s)
  | kw_labelsep v =>
      mkAveryLabel (across s) (down s) (size s) v (gutter s) (margins s)
        (topDown s) (debug s) (radius s) (pagesize s) (position s) (canvas s)
  | kw_gutter v =>
      mkAveryLabel (across s) (down s) (size s) (labelsep s) v (margins s)
        (topDown s) (debug s) (radius s) (pagesize s) (position s) (canvas s)
  | kw_margins v =>
      mkAveryLabel (across s) (down s) (size s) (labelsep s) (gutter s) v
        (topDown s) (debug s) (radius s) (pagesize s) (position s) (canvas s)
  | kw_topDown v =>
      mkAveryLabel (across s) (down s) (size s) (labelsep s) (gutter s)
        (margins s) v (debug s) (radius s) (pagesize s) (position s) (canvas s)
  | kw_debug v =>
      mkAveryLabel (across s) (down s) (size s) (labelsep s) (gutter s)
        (margins s) (topDown s) v (radius s) (pagesize s) (position s) (canvas s)
  | kw_radius v =>
      mkAveryLabel (across s) (down s) (size s) (labelsep s) (gutter s)
        (margins s) (topDown s) (debug s) v (pagesize s) (position s) (canvas s)
  | kw_pagesize v =>
      mkAveryLabel (across s) (down s) (size s) (labelsep s) (gutter s)
        (margins s) (topDown s) (debug s) (radius s) v (position s) (canvas s)
  | kw_position v => set_position v s
  | kw_canvas v => set_canvas v s
  end.

(** [self.__dict__.update(kwargs)]. *)
Definition dict_update (kwargs : list kwarg) (s : AveryLabel) : AveryLabel :=
  fold_left (fun s k => setattr k s) kwargs s.

(** The body of [__init__] once [data = labelInfo[label]] is found. *)
Definition init_from (data : LabelInfo.t) (debug : bool)
    (kwargs : list kwarg) : AveryLabel :=
  let size := LabelInfo.label_size data in
  dict_update kwargs
    {| across := LabelInfo.labels_horizontal data;
       down := LabelInfo.labels_vertical data;
       size := size;
       labelsep := (fst size + fst (LabelInfo.gutter_size data), snd size)%Q;
       gutter := snd (LabelInfo.gutter_size data);
       margins := LabelInfo.margin data;
       topDown := true;
       debug := debug;
       radius := LabelInfo.radius data;
       pagesize := LabelInfo.pagesize data;
       position := 0;
       canvas := Unset |}.

(** [AveryLabel.__init__(self, label, debug, **kwargs)]: the lookup
    [labelInfo[label]] raises [KeyError] for a name that is not a key. *)
Definition __init__ (label : string) (debug : bool) (kwargs : list kwarg)
    : result AveryLabel :=
  match labelInfo !! label with
  | None => inl (KeyError label)
  | Some data => inr (init_from data debug kwargs)
  end.

(** ** Geometry *)

(** Python's [divmod(a, b)] on integers. *)
Definition divmod (a b : Z) : result (Z * Z) :=
  if b =? 0 then inl ZeroDivisionError else inr (a / b, a mod b).

(** [AveryLabel.topLeft(self, x=None, y=None)]. *)
Definition topLeft (self : AveryLabel) (x y : option Z) : result (Q * Q) :=
  let x := match x with None => position self | Some x => x end in
  let xy :=
    match y with
    | None =>
        if topDown self then divmod x (down self)
        else match divmod x (across self) with
             | inl e => inl e
             | inr (y, x) => inr (x, y)
             end
    | Some y => inr (x, y)
    end in
  match xy with
  | inl e => inl e
  | inr (x, y) =>
      inr (fst (margins self) + inject_Z x * fst (labelsep self),
           snd (pagesize self) - snd (margins self) - inject_Z y * gutter self
             - inject_Z (y + 1) * snd (labelsep self))%Q
  end.

(** ** State and exceptions *)

(** The renderer object and the documents that [canvas.save()] has
    written, the most recent first. *)
Record World : Type := mkWorld {
  self : AveryLabel;
  disk : list Canvas
}.

(** A method body: it reads and updates the world and either returns or
    raises; what it changed before raising stays changed. *)
Definition M (A : Type) : Type := World -> result A * World.

Definition ret {A : Type} (a : A) : M A := fun w => (inr a, w).

Definition raise {A : Type} (e : exn) : M A := fun w => (inl e, w).

Definition bind {A B : Type} (m : M A) (k : A -> M B) : M B :=
  fun w =>
    match m w with
    | (inl e, w') => (inl e, w')
    | (inr a, w') => k a w'
    end.

Declare Scope py_scope.
Delimit Scope py_scope with py.
Notation "'let*' x := m 'in' k" := (bind m (fun x => k))
  (at level 10, x name, m at level 100, k at level 200) : py_scope.
Notation "m >> k" := (bind m (fun _ => k))
  (at level 90, right associativity) : py_scope.
Local Open Scope py_scope.

Definition get_self : M AveryLabel := fun w => (inr (self w), w).

Definition put_self (s : AveryLabel) : M unit :=
  fun w => (inr tt, mkWorld s (disk w)).

Definition lift {A : Type} (r : result A) : M A := fun w => (r, w).

(** The canvas after it received [e]. *)
Definition received (c : Canvas) (e : entry) : Canvas :=
  mkCanvas (filename c) (canvas_pagesize c) (e :: log c).

(** Reading the attribute [self.canvas]: [AttributeError] when it was
    never set. *)
Definition getattr_canvas : M canvas_attr :=
  fun w =>
    match canvas (self w) with
    | Unset => (inl AttributeError, w)
    | c => (inr c, w)
    end.

(** A method call on the canvas held in [self.canvas]: [AttributeError]
    when the attribute is missing or [None]. *)
Definition canvas_call (op : canvas_op) : M unit :=
  fun w =>
    match canvas (self w) with
    | Live c =>
        (inr tt, mkWorld (set_canvas (Live (received c (call op))) (self w))
                   (disk w))
    | _ => (inl AttributeError, w)
    end.

(** [self.canvas.save()]: the document is written out.  What reportlab
    does inside [save()] on its own account (it ends a page that has
    content pending, and it raises for a form that was drawn and never
    defined) is not part of the model. *)
Definition canvas_save : M unit :=
  fun w =>
    match canvas (self w) with
    | Live c =>
        let c' := received c (call save) in
        (inr tt, mkWorld (set_canvas (Live c') (self w)) (c' :: disk w))
    | _ => (inl AttributeError, w)
    end.

(** [AveryLabel.open(self, filename)]. *)
Definition open (name : string) : M unit :=
  let* s := get_self in
  put_self (set_canvas (Live (mkCanvas name (pagesize s) [])) s) >>
  (if debug s then canvas_call (setPageCompression 0) else ret tt) >>
  canvas_call (setLineJoin 1) >>
  canvas_call (setLineCap 1).

(** [AveryLabel.advance(self)]. *)
Definition advance : M unit :=
  let* s := get_self in
  put_self (set_position (position s + 1) s) >>
  let* s := get_self in
  if position s =? across s * down s then
    canvas_call showPage >>
    let* s := get_self in
    put_self (set_position 0 s)
  else ret tt.

(** [AveryLabel.close(self)]. *)
Definition close : M unit :=
  let* s := get_self in
  (if position s =? 0 then ret tt else canvas_call showPage) >>
  canvas_save >>
  let* s := get_self in
  put_self (set_canvas PyNone s).

Section Render.

(** The values handed through to the content callable: the extra
    arguments of [render] and the items of the iterator. *)
Context {V : Type}.

(** A content callable, called as [thing(canv, width, height, *args)]:
    from the canvas as it stands it makes some calls on it and then
    returns or raises. *)
Definition callback : Type :=
  Canvas -> Q -> Q -> list V -> list canvas_op * option exn.

(** The argument [thing] of [render]: a callable, the name of a form,
    or an object that is neither. *)
Inductive thing : Type :=
| Callable (f : callback)
| Str (name : string)
| Other.

Definition callable (t : thing) : bool :=
  match t with Callable _ => true | _ => false end.

Definition is_str (t : thing) : bool :=
  match t with Str _ => true | _ => false end.

(** The argument [count] of [render]: a number, or an iterator given by
    the items it yields. *)
Inductive count_arg : Type :=
| Int (n : Z)
| Iter (items : list V).

(** [range(count)]. *)
Definition range (count : Z) : list Z :=
  map Z.of_nat (seq 0 (Z.to_nat count)).

(** [for a in l: body(a)]. *)
Fixpoint for_each {A : Type} (body : A -> M unit) (l : list A) : M unit :=
  match l with
  | [] => ret tt
  | a :: l' => body a >> for_each body l'
  end.

(** Calling the content callable [f] on the canvas. *)
Definition invoke (f : callback) (width height : Q) (args : list V)
    : M unit :=
  fun w =>
    match canvas (self w) with
    | Live c =>
        let '(ops, raised) := f c width height args in
        let w' := mkWorld (set_canvas (Live (received c (content ops)))
                             (self w)) (disk w) in
        match raised with
        | None => (inr tt, w')
        | Some e => (inl e, w')
        end
    | _ => (inl AttributeError, w)
    end.

(** [if self.debug: canv.setLineWidth(0.25); canv.roundRect(...)]. *)
Definition debug_outline : M unit :=
  let* s := get_self in
  if debug s then
    canvas_call (setLineWidth 0.25) >>
    canvas_call (roundRect 0 0 (fst (size s)) (snd (size s)) (radius s))
  else ret tt.

(** One iteration of the loop of [render].  [canv] is the object held
    in [self.canvas] for the whole loop, so calls on [canv] are calls
    on [self.canvas]. *)
Definition render_step (t : thing) (args : list V) : M unit :=
  canvas_call saveState >>
  let* s := get_self in
  let* xy := lift (topLeft s None None) in
  canvas_call (translate (fst xy) (snd xy)) >>
  debug_outline >>
  (match t with
   | Callable f => invoke f (fst (size s)) (snd (size s)) args
   | Str name => canvas_call (doForm name)
   | Other => ret tt
   end) >>
  canvas_call restoreState >>
  advance.

(** One iteration of the loop of [render_iterator]: [func] is called
    whatever it is. *)
Definition render_iterator_step (func : thing) (chunk : V) : M unit :=
  canvas_call saveState >>
  let* s := get_self in
  let* xy := lift (topLeft s None None) in
  canvas_call (translate (fst xy) (snd xy)) >>
  debug_outline >>
  (match func with
   | Callable f => invoke f (fst (size s)) (snd (size s)) [chunk]
   | _ => raise TypeError
   end) >>
  canvas_call restoreState >>
  advance.

(** [AveryLabel.render_iterator(self, func, iterator)]. *)
Definition render_iterator (func : thing) (iterator : list V) : M unit :=
  let* canv := getattr_canvas in
  for_each (render_iterator_step func) iterator.

(** [AveryLabel.render(self, thing, count, *args)]. *)
Definition render (t : thing) (count : count_arg) (args : list V) : M unit :=
  if negb (callable t || is_str t) then raise AssertionError
  else
    match count with
    | Iter iterator => render_iterator t iterator
    | Int n =>
        let* canv := getattr_canvas in
        for_each (fun _ => render_step t args) (range n)
    end.

(** The usage given at the head of the module: construct, [open],
    [render], [close]. *)
Definition usage (label : string) (dbg : bool) (kwargs : list kwarg)
    (name : string) (t : thing) (count : count_arg) (args : list V)
    (files : list Canvas) : result unit * list Canvas :=
  match __init__ label dbg kwargs with
  | inl e => (inl e, files)
  | inr s =>
      let '(r, w) := (open name >> render t count args >> close)
                       (mkWorld s files) in
      (r, disk w)
  end.

(** A call of a public method that draws or manages the output. *)
Inductive method_call : Type :=
| call_open (name : string)
| call_render (t : thing) (count : count_arg) (args : list V)
| call_render_iterator (func : thing) (iterator : list V)
| call_close.

Definition perform (m : method_call) : M unit :=
  match m with
  | call_open name => open name
  | call_render t count args => render t count args
  | call_render_iterator func iterator => render_iterator func iterator
  | call_close => close
  end.

(** A caller that makes the calls one after the other and goes on
    after an exception: the world after the last call. *)
Fixpoint run (calls : list method_call) (w : World) : World :=
  match calls with
  | [] => w
  | m :: rest => run rest (snd (perform m w))
  end.

(** Content that returns whenever it is invoked and never ends the
    page itself. *)
Definition well_behaved (t : thing) : Prop :=
  match t with
  | Callable f =>
      forall c width height args,
        snd (f c width height args) = None
        /\ ~ In showPage (fst (f c width height args))
  | Str _ => True
  | Other => False
  end.

End Render.

Arguments callback : clear implicits.
Arguments thing : clear implicits.
Arguments count_arg : clear implicits.
Arguments method_call : clear implicits.

(** ** Reading a canvas record *)

(** The canvas methods behind an entry, in call order. *)
Definition ops_of (e : entry) : list canvas_op :=
  match e with
  | call op => [op]
  | content ops => ops
  end.

(** Every method call a canvas received, in call order. *)
Definition flat (l : list entry) : list canvas_op := flat_map ops_of l.

Definition is_showPage (op : canvas_op) : bool :=
  match op with showPage => true | _ => false end.

Definition is_saveState (op : canvas_op) : bool :=
  match op with saveState => true | _ => false end.

Definition is_restoreState (op : canvas_op) : bool :=
  match op with restoreState => true | _ => false end.

Definition count (p : canvas_op -> bool) (ops : list canvas_op) : Z :=
  Z.of_nat (length (List.filter p ops)).

(** Page-end operations a canvas received. *)
Definition page_ends (l : list entry) : Z := count is_showPage (flat l).

(** Graphics states saved and not yet restored. *)
Definition unrestored (ops : list canvas_op) : Z :=
  count is_saveState ops - count is_restoreState ops.

(** Page accounting over a record: the units on each finalized page,
    the first page first, and the units on the page still open.  A unit
    is one invocation of the content callable or one [doForm];
    [showPage] ends the page. *)
Definition account (acc : list Z * Z) (e : entry) : list Z * Z :=
  match e with
  | call showPage => (fst acc ++ [snd acc], 0)
  | call (doForm _) => (fst acc, snd acc + 1)
  | content _ => (fst acc, snd acc + 1)
  | call _ => acc
  end.

Fixpoint paginate (l : list entry) : list Z * Z :=
  match l with
  | [] => ([], 0)
  | e :: earlier => account (paginate earlier) e
  end.

Definition page_units (l : list entry) : list Z := fst (paginate l).

Definition open_units (l : list entry) : Z := snd (paginate l).

(** [ceil(k / c)] for a positive [c]. *)
Definition ceil_div (k c : Z) : Z := (k + c - 1) / c.

(** The template of Scenario C is the catalogue entry ["avery5163"]. *)
Definition scenario_C : LabelInfo.t :=
  LabelInfo.mk 2 5 (288, 144)%Q (0, 0)%Q (18, 36)%Q LETTER 0%Q.

(** The origins of the slots [0 .. columns * rows - 1] of a renderer. *)
Definition origins (s : AveryLabel) : list (result (Q * Q)) :=
  map (fun i => topLeft s (Some i) None) (range (across s * down s)).

(** What one iteration of a render loop sends to the canvas before the
    content, the most recent first: [saveState], then [translate] to the
    origin, then the outline when [debug] is set. *)
Definition prelude (s : AveryLabel) (xy : Q * Q) : list entry :=
  (if debug s
   then [call (roundRect 0 0 (fst (size s)) (snd (size s)) (radius s));
         call (setLineWidth 0.25)]
   else [])
  ++ [call (translate (fst xy) (snd xy)); call saveState].

(** The canvas after it received the entries [l], the most recent
    first. *)
Definition sent (c : Canvas) (l : list entry) : Canvas :=
  mkCanvas (filename c) (canvas_pagesize c) (l ++ log c).

(** The cursor after [advance], and the page end it sends. *)
Definition next_position (s : AveryLabel) : Z :=
  if position s + 1 =? across s * down s then 0 else position s + 1.

Definition page_break (s : AveryLabel) : list entry :=
  if position s + 1 =? across s * down s then [call showPage] else [].

(** The renderer with its cursor at [p] and its canvas at [c]. *)
Definition moved (p : Z) (c : Canvas) (s : AveryLabel) : AveryLabel :=
  set_position p (set_canvas (Live c) s).

(** The cursor lies on the sheet. *)
Definition cursor_ok (s : AveryLabel) : Prop :=
  0 <= position s < across s * down s.

(** The renderer is on a sheet of [a] columns and [d] rows with its
    cursor on the sheet. *)
Definition on_sheet (a d : Z) (w : World) : Prop :=
  across (self w) = a /\ down (self w) = d
  /\ 0 <= position (self w) < a * d.

(** Example content callables: one draws and returns, one raises
    after drawing part of its content. *)
Definition draw_qr : callback Z :=
  fun _ _ _ _ => ([drawing "qr"], None).

Definition broken : callback Z :=
  fun _ _ _ _ => ([drawing "half"], Some (Raised "boom")).

(** A renderer for the template of Scenario C with an empty canvas. *)
Definition fresh_C : World :=
  mkWorld (set_canvas (Live (mkCanvas "out.pdf" LETTER []))
             (init_from scenario_C false [])) [].

(** The origins the renderer moved to, the oldest first: the
    [translate] calls it made itself. *)
Fixpoint translations (l : list entry) : list (Q * Q) :=
  match l with
  | [] => []
  | call (translate x y) :: earlier => translations earlier ++ [(x, y)]
  | _ :: earlier => translations earlier
  end.

(** The label whose lower left corner is [xy] lies on the page. *)
Definition on_page (s : AveryLabel) (xy : Q * Q) : Prop :=
  (0 <= fst xy /\ fst xy + fst (size s) <= fst (pagesize s)
   /\ 0 <= snd xy /\ snd xy + snd (size s) <= snd (pagesize s))%Q.

Definition on_pageb (s : AveryLabel) (xy : Q * Q) : bool :=
  Qle_bool 0 (fst xy)
  && Qle_bool (fst xy + fst (size s)) (fst (pagesize s))
  && Qle_bool 0 (snd xy)
  && Qle_bool (snd xy + snd (size s)) (snd (pagesize s)).

(** Every slot of the sheet has its label on the page. *)
Definition all_slots_on_page (s : AveryLabel) : bool :=
  forallb (fun i => match topLeft s (Some i) None with
                    | inr xy => on_pageb s xy
                    | inl _ => false
                    end)
    (range (across s * down s)).

(** The keyword arguments that set none of the attributes [topLeft]
    reads when it is given a slot index. *)
Definition placement_free (k : kwarg) : bool :=
  match k with
  | kw_size _ | kw_debug _ | kw_radius _ | kw_position _ | kw_canvas _ => true
  | _ => false
  end.

(** Content that restores every graphics state it saves. *)
Definition balanced {V : Type} (t : thing V) : Prop :=
  match t with
  | Callable f =>
      forall c width height args,
        unrestored (fst (f c width height args)) = 0
  | _ => True
  end.

(** The [close] calls among the calls of a caller. *)
Definition closes {V : Type} (calls : list (method_call V)) : nat :=
  length (List.filter (fun m => match m with call_close => true | _ => false end)
            calls).

(** A content callable that draws inside a graphics state of its own. *)
Definition draw_scaled : callback Z :=
  fun _ _ _ _ => ([saveState; drawing "qr"; restoreState], None).

(** ** The geometry in Python's own numbers *)

Module Py.

Import PrimFloat SpecFloat FloatOps.

Set Warnings "-inexact-float".

(** A Python number: an [int] or a [float]. *)
Inductive num : Type :=
| of_int (z : Z)
| of_float (f : float).

(** The conversion of an [int] that a mixed operation makes: rounded to
    the nearest [float], ties to even; [OverflowError] when that is
    beyond the largest [float]. *)
Definition float_of_int (z : Z) : result float :=
  let f := SF2Prim (binary_normalize prec emax z 0 false) in
  if is_infinity f then inl OverflowError else inr f.

(** A binary operation of Python on numbers: on two [int]s it is the
    integer operation; otherwise an [int] operand is converted and the
    operation is that of [float], which does not raise. *)
Definition arith (on_int : Z -> Z -> Z) (on_float : float -> float -> float)
    (a b : num) : result num :=
  match a, b with
  | of_int x, of_int y => inr (of_int (on_int x y))
  | of_int x, of_float g =>
      match float_of_int x with
      | inl e => inl e
      | inr f => inr (of_float (on_float f g))
      end
  | of_float f, of_int y =>
      match float_of_int y with
      | inl e => inl e
      | inr g => inr (of_float (on_float f g))
      end
  | of_float f, of_float g => inr (of_float (on_float f g))
  end.

Definition add : num -> num -> result num := arith Z.add PrimFloat.add.
Definition sub : num -> num -> result num := arith Z.sub PrimFloat.sub.
Definition mul : num -> num -> result num := arith Z.mul PrimFloat.mul.

(** Sequencing of computations that may raise. *)
Definition and_then {A B : Type} (r : result A) (k : A -> result B)
    : result B :=
  match r with
  | inl e => inl e
  | inr a => k a
  end.

(** The constants of reportlab, computed as the library computes
    them. *)
Definition inch : float := 72.0.
Definition cm : float := inch / 2.54.
Definition mm : float := cm * 0.1.
Definition LETTER : num * num := (of_float (8.5 * inch), of_float (11 * inch)).
Definition A4 : num * num := (of_float (210 * mm), of_float (297 * mm)).

(** [@dataclass class LabelInfo]. *)
Record LabelInfo : Type := mkLabelInfo {
  labels_horizontal : Z;
  labels_vertical : Z;
  label_size : num * num;
  gutter_size : num * num;
  margin : num * num;
  pagesize_of : num * num;
  radius_of : num
}.

(** The entry ["avery5167"] of [labelInfo] (1.75 x 0.5 return address
    labels). *)
Definition avery5167 : LabelInfo :=
  mkLabelInfo 4 20
    (of_float (1.75 * inch), of_float (0.5 * inch))
    (of_float (0.3 * inch), of_int 0)
    (of_float (0.3 * inch), of_float (0.5 * inch))
    LETTER (of_int 0).

(** The entries of the dictionary literal [labelInfo], each value as
    Python evaluates it: a product with [mm] or [inch] is a [float], a
    plain integer literal an [int]. *)
Definition labelInfo_items : list (string * LabelInfo) :=
  [ ("royalgreen1660",
     mkLabelInfo 7 22
       (of_float (25.4 * mm), of_float (9.52 * mm))
       (of_float (2.5 * mm), of_float (2.45 * mm))
       (of_float (11.55 * mm), of_float (8.73 * mm))
       LETTER (of_int 3));
    ("averyL4731",
     mkLabelInfo 7 27
       (of_float (25.4 * mm), of_float (10 * mm))
       (of_float (2.5 * mm), of_int 0)
       (of_float (9 * mm), of_float (13.5 * mm))
       A4 (of_int 4));
    ("avery5160",
     mkLabelInfo 3 10 (of_int 187, of_int 72) (of_int 11, of_int 0)
       (of_int 14, of_int 36) LETTER (of_int 0));
    ("avery5161",
     mkLabelInfo 2 10 (of_int 288, of_int 72) (of_int 0, of_int 0)
       (of_int 18, of_int 36) LETTER (of_int 0));
    ("avery5163",
     mkLabelInfo 2 5 (of_int 288, of_int 144) (of_int 0, of_int 0)
       (of_int 18, of_int 36) LETTER (of_int 0));
    ("avery5167", avery5167);
    ("avery5371",
     mkLabelInfo 2 5 (of_int 252, of_int 144) (of_int 0, of_int 0)
       (of_int 54, of_int 36) LETTER (of_int 0)) ].

(** [labelInfo: dict[str, LabelInfo]]. *)
Definition labelInfo : gmap string LabelInfo := list_to_map labelInfo_items.

(** The attributes [__init__] sets. *)
Record AveryLabel : Type := mkAveryLabel {
  across : Z;
  down : Z;
  size : num * num;
  labelsep : num * num;
  gutter : num;
  margins : num * num;
  topDown : bool;
  debug : bool;
  radius : num;
  pagesize : num * num;
  position : Z
}.

(** The body of [__init__] once [data = labelInfo[label]] is found,
    for a call without keyword arguments. *)
Definition init_from (data : LabelInfo) (debug : bool) : result AveryLabel :=
  let size := label_size data in
  and_then (add (fst size) (fst (gutter_size data))) (fun sep =>
  inr {| across := labels_horizontal data;
         down := labels_vertical data;
         size := size;
         labelsep := (sep, snd size);
         gutter := snd (gutter_size data);
         margins := margin data;
         topDown := true;
         debug := debug;
         radius := radius_of data;
         pagesize := pagesize_of data;
         position := 0 |}).

(** [AveryLabel.__init__(self, label, debug)]. *)
Definition __init__ (label : string) (debug : bool) : result AveryLabel :=
  match labelInfo !! label with
  | None => inl (KeyError label)
  | Some data => init_from data debug
  end.

(** [AveryLabel.topLeft(self, x=None, y=None)], the operations in the
    order Python evaluates them. *)
Definition topLeft (self : AveryLabel) (x y : option Z) : result (num * num) :=
  let x := match x with None => position self | Some x => x end in
  let xy :=
    match y with
    | None =>
        if topDown self then divmod x (down self)
        else match divmod x (across self) with
             | inl e => inl e
             | inr (y, x) => inr (x, y)
             end
    | Some y => inr (x, y)
    end in
  and_then xy (fun '(x, y) =>
  and_then (mul (of_int x) (fst (labelsep self))) (fun across_by =>
  and_then (add (fst (margins self)) across_by) (fun left =>
  and_then (sub (snd (pagesize self)) (snd (margins self))) (fun below_margin =>
  and_then (mul (of_int y) (gutter self)) (fun gutters =>
  and_then (sub below_margin gutters) (fun below_gutters =>
  and_then (mul (of_int (y + 1)) (snd (labelsep self))) (fun labels =>
  and_then (sub below_gutters labels) (fun bottom =>
  inr (left, bottom))))))))).

(** The real number a Python number stands for ([0] for an infinity or
    a NaN, which [finite] tells apart). *)
Definition exact (n : num) : Q :=
  match n with
  | of_int z => inject_Z z
  | of_float f =>
      match Prim2SF f with
      | S754_finite negative m e =>
          let mantissa := if negative then Z.neg m else Z.pos m in
          match e with
          | Z0 => inject_Z mantissa
          | Zpos k => inject_Z (mantissa * Z.pow_pos 2 k)
          | Zneg k => Qmake mantissa (Pos.pow 2 k)
          end
      | _ => 0%Q
      end
  end.

Definition finite (n : num) : bool :=
  match n with
  | of_int _ => true
  | of_float f =>
      match Prim2SF f with
      | S754_finite _ _ _ | S754_zero _ => true
      | _ => false
      end
  end.

(** What rounding may add to or take from a spacing: a billionth of a
    unit of the drawing surface. *)
Definition tolerance : Q := 1 # 1000000000.

(** The points [p] of slot [i] and [q] of slot [j] are in order and
    spaced as the template says, up to [tolerance]. *)
Definition spaced (data : LabelInfo) (i j : Z) (p q : Q * Q) : Prop :=
  let rows := labels_vertical data in
  let width := exact (fst (label_size data)) in
  let height := exact (snd (label_size data)) in
  let column_gutter := exact (fst (gutter_size data)) in
  let row_gutter := exact (snd (gutter_size data)) in
  (i / rows < j / rows -> (fst p < fst q)%Q)
  /\ (j / rows = i / rows + 1 ->
      (Qabs (fst q - fst p - (width + column_gutter)) <= tolerance)%Q)
  /\ (i mod rows < j mod rows -> (snd q < snd p)%Q)
  /\ (j mod rows = i mod rows + 1 ->
      (Qabs (snd p - snd q - (height + row_gutter)) <= tolerance)%Q).

Definition spacedb (rows : Z) (across_by down_by : Q) (i j : Z)
    (p q : Q * Q) : bool :=
  (if i / rows <? j / rows then negb (Qle_bool (fst q) (fst p)) else true)
  && (if j / rows =? i / rows + 1
      then Qle_bool (Qabs (fst q - fst p - across_by)%Q) tolerance
      else true)
  && (if i mod rows <? j mod rows then negb (Qle_bool (snd p) (snd q))
      else true)
  && (if j mod rows =? i mod rows + 1
      then Qle_bool (Qabs (snd p - snd q - down_by)%Q) tolerance
      else true).

(** The origin of a slot as a point of the plane, if [topLeft] returns
    finite numbers. *)
Definition point (s : AveryLabel) (i : Z) : option (Q * Q) :=
  match topLeft s (Some i) None with
  | inl _ => None
  | inr p =>
      if finite (fst p) && finite (snd p)
      then Some (exact (fst p), exact (snd p))
      else None
  end.

(** Every slot of the sheet has a point, and every two are [spaced]. *)
Definition all_spaced (data : LabelInfo) : bool :=
  match init_from data false with
  | inl _ => false
  | inr s =>
      let rows := labels_vertical data in
      let across_by :=
        Qred (exact (fst (label_size data))
              + exact (fst (gutter_size data)))%Q in
      let down_by :=
        Qred (exact (snd (label_size data))
              + exact (snd (gutter_size data)))%Q in
      let points := map (fun i => (i, point s i)) (range (across s * down s)) in
      forallb (fun '(i, pi) =>
        match pi with
        | None => false
        | Some p =>
            forallb (fun '(j, pj) =>
              match pj with
              | None => false
              | Some q => spacedb rows across_by down_by i j p q
              end) points
        end) points
  end.

(** A template on which binary64 absorbs the label width: the margin
    is [2^60] and the labels are one unit wide. *)
Definition absorbing : LabelInfo :=
  mkLabelInfo 3 1 (of_float 1, of_float 1) (of_int 0, of_int 0)
    (of_float 1152921504606846976, of_int 0) LETTER (of_int 0).

End Py.

(** * Geometry *)

Section Geometry.

Variable data : LabelInfo.t.
Variable dbg : bool.

Let columns := LabelInfo.labels_horizontal data.
Let rows := LabelInfo.labels_vertical data.
Let labelWidth := fst (LabelInfo.label_size data).
Let labelHeight := snd (LabelInfo.label_size data).
Let columnGutter := fst (LabelInfo.gutter_size data).
Let rowGutter := snd (LabelInfo.gutter_size data).
Let marginLeft := fst (LabelInfo.margin data).
Let marginTop := snd (LabelInfo.margin data).
Let pageHeight := snd (LabelInfo.pagesize data).

(** The origin of the label in column [col] and row [row], as
    [topLeft] computes it when both coordinates are passed. *)
Lemma topLeft_at (kwargs : list kwarg) (col row : Z) :
  (forall v, ~ In (kw_labelsep v) kwargs) ->
  (forall v, ~ In (kw_gutter v) kwargs) ->
  (forall v, ~ In (kw_margins v) kwargs) ->
  (forall v, ~ In (kw_pagesize v) kwargs) ->
  topLeft (init_from data dbg kwargs) (Some col) (Some row) =
  inr (marginLeft + inject_Z col * (labelWidth + columnGutter),
       pageHeight - marginTop - inject_Z row * rowGutter
         - inject_Z (row + 1) * labelHeight)%Q.
Proof.
  unfold init_from, dict_update.
  set (s0 := mkAveryLabel _ _ _ _ _ _ _ _ _ _ _ _).
  assert (Hs0 : labelsep s0 = (labelWidth + columnGutter, labelHeight)%Q
                /\ gutter s0 = rowGutter
                /\ margins s0 = LabelInfo.margin data
                /\ pagesize s0 = LabelInfo.pagesize data) by (repeat split).
  clearbody s0. revert s0 Hs0.
  induction kwargs as [|k ks IH]; intros s0 (H1 & H2 & H3 & H4) N1 N2 N3 N4.
  - cbn [fold_left]. unfold topLeft. rewrite H1, H2, H3, H4. reflexivity.
  - cbn [fold_left]. apply IH.
    + destruct k; cbn; try (repeat split; assumption).
      * exfalso. apply (N1 v). now left.
      * exfalso. apply (N2 v). now left.
      * exfalso. apply (N3 v). now left.
      * exfalso. apply (N4 v). now left.
    + intros v Hv. apply (N1 v). now right.
    + intros v Hv. apply (N2 v). now right.
    + intros v Hv. apply (N3 v). now right.
    + intros v Hv. apply (N4 v). now right.
Qed.

(** A keyword is absent from an explicit list of keyword arguments. *)
Ltac no_kwarg :=
  let v := fresh "v" in
  let H := fresh "H" in
  intros v H; cbn in H; intuition discriminate.

(** Top-down order: [x, y = divmod(x, self.down)]. *)
Lemma topLeft_top_down_divmod (i : Z) :
  rows <> 0 ->
  topLeft (init_from data dbg []) (Some i) None =
  topLeft (init_from data dbg []) (Some (i / rows)) (Some (i mod rows)).
Proof.
  intros Hr. unfold topLeft, divmod. cbn.
  fold rows. destruct (Z.eqb_spec rows 0) as [E|_]; [contradiction|].
  reflexivity.
Qed.

(** Left-right order: [y, x = divmod(x, self.across)]. *)
Lemma topLeft_left_right_divmod (i : Z) :
  columns <> 0 ->
  topLeft (init_from data dbg [kw_topDown false]) (Some i) None =
  topLeft (init_from data dbg [kw_topDown false])
    (Some (i mod columns)) (Some (i / columns)).
Proof.
  intros Hc. unfold topLeft, divmod. cbn.
  fold columns. destruct (Z.eqb_spec columns 0) as [E|_]; [contradiction|].
  reflexivity.
Qed.

(** C1.  Under the default top-down order, for a slot index [i] with
    [0 <= i < columns * rows], [topLeft] returns
    [x = marginLeft + col * (labelWidth + columnGutter)] and
    [y = pageHeight - marginTop - row * rowGutter - (row + 1) * labelHeight]
    with [(col, row) = divmod(i, rows)], whether the index is passed or
    taken from the cursor; for the template of Scenario C (the catalogue
    entry avery5163) slot 0 is at (18, 612) and slot 1 at (18, 468). *)
Theorem topLeft_top_down (i : Z) :
  0 <= i < columns * rows ->
  let col := i / rows in
  let row := i mod rows in
  let origin :=
    (marginLeft + inject_Z col * (labelWidth + columnGutter),
     pageHeight - marginTop - inject_Z row * rowGutter
       - inject_Z (row + 1) * labelHeight)%Q in
  topLeft (init_from data dbg []) (Some i) None = inr origin
  /\ topLeft (set_position i (init_from data dbg [])) None None = inr origin
  /\ __init__ "avery5163" dbg [] = inr (init_from scenario_C dbg [])
  /\ topLeft (init_from scenario_C dbg []) (Some 0) None = inr (18, 612)%Q
  /\ topLeft (init_from scenario_C dbg []) (Some 1) None = inr (18, 468)%Q.
Proof.
  intros Hi col row origin.
  assert (Hr : rows <> 0) by nia.
  assert (H1 : topLeft (init_from data dbg []) (Some i) None = inr origin).
  { rewrite topLeft_top_down_divmod by assumption.
    apply topLeft_at; no_kwarg. }
  split; [exact H1|]. split; [exact H1|].
  split; [reflexivity|]. split; reflexivity.
Qed.

(** In exact arithmetic, with positive label dimensions and
    non-negative gutters, for valid slot indices under top-down order:
    [x] grows strictly with the column, by exactly
    [labelWidth + columnGutter] from one column to the next, and [y]
    falls strictly with the row, by exactly [labelHeight + rowGutter]
    from one row to the next.  What binary64 makes of it is
    [catalogue_spacing] below. *)
Lemma topLeft_spacing (i j : Z) (xi yi xj yj : Q) :
  (0 < labelWidth)%Q -> (0 < labelHeight)%Q ->
  (0 <= columnGutter)%Q -> (0 <= rowGutter)%Q ->
  0 <= i < columns * rows -> 0 <= j < columns * rows ->
  topLeft (init_from data dbg []) (Some i) None = inr (xi, yi) ->
  topLeft (init_from data dbg []) (Some j) None = inr (xj, yj) ->
  (i / rows < j / rows -> (xi < xj)%Q)
  /\ (j / rows = i / rows + 1 -> (xj - xi == labelWidth + columnGutter)%Q)
  /\ (i mod rows < j mod rows -> (yj < yi)%Q)
  /\ (j mod rows = i mod rows + 1 -> (yi - yj == labelHeight + rowGutter)%Q).
Proof.
  intros Hw Hh Hgx Hgy Hi Hj Ei Ej.
  assert (Hr : rows <> 0) by nia.
  rewrite topLeft_top_down_divmod in Ei, Ej by assumption.
  rewrite topLeft_at in Ei, Ej by no_kwarg.
  injection Ei as <- <-. injection Ej as <- <-.
  repeat split.
  - intros Hlt. rewrite Zlt_Qlt in Hlt.
    set (a := inject_Z (i / rows)) in *. set (b := inject_Z (j / rows)) in *.
    nra.
  - intros ->. rewrite inject_Z_plus. ring.
  - intros Hlt.
    assert (Hlt' : i mod rows + 1 < j mod rows + 1) by lia.
    rewrite Zlt_Qlt in Hlt, Hlt'.
    set (a := inject_Z (i mod rows)) in *.
    set (b := inject_Z (j mod rows)) in *.
    set (a' := inject_Z (i mod rows + 1)) in *.
    set (b' := inject_Z (j mod rows + 1)) in *.
    nra.
  - intros ->. rewrite !inject_Z_plus. ring.
Qed.

(** Every top-down origin is the left-right origin of some slot. *)
Lemma top_down_in_left_right (i : Z) :
  0 < columns -> 0 < rows -> 0 <= i < columns * rows ->
  exists j, 0 <= j < columns * rows
    /\ topLeft (init_from data dbg [kw_topDown false]) (Some j) None
       = topLeft (init_from data dbg []) (Some i) None.
Proof.
  intros Hc Hr Hi.
  assert (Hrow : 0 <= i mod rows < rows) by (apply Z.mod_pos_bound; lia).
  assert (Hcol : 0 <= i / rows < columns).
  { split; [apply Z.div_pos; lia|apply Z.div_lt_upper_bound; lia]. }
  exists (i mod rows * columns + i / rows). split.
  { assert (i mod rows * columns <= (rows - 1) * columns)
      by (apply Z.mul_le_mono_nonneg_r; lia).
    nia. }
  rewrite topLeft_left_right_divmod, topLeft_top_down_divmod by lia.
  rewrite Z.add_comm, Z.mod_add, Z.div_add by lia.
  rewrite (Z.mod_small (i / rows) columns), (Z.div_small (i / rows) columns)
    by lia.
  rewrite Z.add_0_l, !topLeft_at by no_kwarg. reflexivity.
Qed.

(** Every left-right origin is the top-down origin of some slot. *)
Lemma left_right_in_top_down (j : Z) :
  0 < columns -> 0 < rows -> 0 <= j < columns * rows ->
  exists i, 0 <= i < columns * rows
    /\ topLeft (init_from data dbg []) (Some i) None
       = topLeft (init_from data dbg [kw_topDown false]) (Some j) None.
Proof.
  intros Hc Hr Hj.
  assert (Hcol : 0 <= j mod columns < columns) by (apply Z.mod_pos_bound; lia).
  assert (Hrow : 0 <= j / columns < rows).
  { split; [apply Z.div_pos; lia|apply Z.div_lt_upper_bound; lia]. }
  exists (j mod columns * rows + j / columns). split.
  { assert (j mod columns * rows <= (columns - 1) * rows)
      by (apply Z.mul_le_mono_nonneg_r; lia).
    nia. }
  rewrite topLeft_left_right_divmod, topLeft_top_down_divmod by lia.
  rewrite Z.add_comm, Z.mod_add, Z.div_add by lia.
  rewrite (Z.mod_small (j / columns) rows), (Z.div_small (j / columns) rows)
    by lia.
  rewrite Z.add_0_l, !topLeft_at by no_kwarg. reflexivity.
Qed.

End Geometry.

(** Membership in [range]. *)
Lemma in_range (n i : Z) : In i (range n) <-> 0 <= i < n.
Proof.
  unfold range. rewrite in_map_iff. split.
  - intros (k & <- & Hk). apply in_seq in Hk. lia.
  - intros Hi. exists (Z.to_nat i). split; [lia|]. apply in_seq. lia.
Qed.

(** C7.  For a template with at least one column and one row, the
    origins of the slots [0 .. columns * rows - 1] are the same set under
    left-right order as under top-down order; top-down takes
    [(col, row) = divmod(i, rows)] and left-right takes
    [(row, col) = divmod(i, columns)]. *)
Theorem scan_order_same_origins (data : LabelInfo.t) (dbg : bool) :
  0 < LabelInfo.labels_horizontal data ->
  0 < LabelInfo.labels_vertical data ->
  let columns := LabelInfo.labels_horizontal data in
  let rows := LabelInfo.labels_vertical data in
  let top_down := init_from data dbg [] in
  let left_right := init_from data dbg [kw_topDown false] in
  (forall o, In o (origins top_down) <-> In o (origins left_right))
  /\ (forall i, topLeft top_down (Some i) None
                = topLeft top_down (Some (i / rows)) (Some (i mod rows)))
  /\ (forall i, topLeft left_right (Some i) None
                = topLeft left_right (Some (i mod columns)) (Some (i / columns))).
Proof.
  intros Hc Hr columns rows top_down left_right.
  split; [|split].
  - intros o. unfold origins. rewrite !in_map_iff.
    change (across top_down * down top_down) with (columns * rows).
    change (across left_right * down left_right) with (columns * rows).
    split.
    + intros (i & <- & Hi). apply in_range in Hi.
      destruct (top_down_in_left_right data dbg i Hc Hr Hi) as (j & Hj & E).
      exists j. split; [exact E|]. now apply in_range.
    + intros (j & <- & Hj). apply in_range in Hj.
      destruct (left_right_in_top_down data dbg j Hc Hr Hj) as (i & Hi & E).
      exists i. split; [exact E|]. now apply in_range.
  - intros i. apply topLeft_top_down_divmod. fold rows. lia.
  - intros i. apply topLeft_left_right_divmod. fold columns. lia.
Qed.

Lemma topLeft_top_down_witness :
  topLeft (init_from scenario_C false []) (Some 7) None = inr (306, 324)%Q.
Proof.
  exact (proj1 (topLeft_top_down scenario_C false 7 ltac:(cbn; lia))).
Defined.

Lemma scan_order_same_origins_witness :
  In (inr (306, 324)%Q) (origins (init_from scenario_C false [kw_topDown false])).
Proof.
  apply (proj1 (scan_order_same_origins scenario_C false
                  ltac:(reflexivity) ltac:(reflexivity))).
  unfold origins. apply in_map_iff. exists 7. split; [reflexivity|].
  apply in_range. cbn. lia.
Defined.

(** * The render loop *)

Ltac run_method :=
  unfold render_step, render_iterator_step, open, close, advance,
    debug_outline, invoke, canvas_save, canvas_call, getattr_canvas,
    get_self, put_self, lift, raise, ret, bind,
    prelude, sent, received, moved, next_position, page_break,
    set_canvas, set_position.

Section Engine.

Context {V : Type}.

(** [for_each] keeps whatever its body keeps. *)
Lemma for_each_keeps {A : Type} (P : World -> Prop) (body : A -> M unit) :
  (forall a w, P w -> P (snd (body a w))) ->
  forall l w, P w -> P (snd (for_each body l w)).
Proof.
  intros Hbody l. induction l as [|a l IH]; intros w Hw; [exact Hw|].
  cbn [for_each]. unfold bind. specialize (Hbody a w Hw).
  destruct (body a w) as [[e|[]] w']; cbn [snd] in *; [exact Hbody|].
  now apply IH.
Qed.

(** [advance] on an open canvas. *)
Lemma advance_live (w : World) (c : Canvas) :
  canvas (self w) = Live c ->
  advance w =
  (inr tt,
   mkWorld (moved (next_position (self w))
              (sent c (page_break (self w))) (self w)) (disk w)).
Proof.
  destruct w as [[ac dn sz ls gt mg td db rd ps pos cv] d].
  cbn [self disk canvas]. intros ->. run_method. cbn.
  destruct c as [fn cps lg]. destruct (Z.eqb _ _); reflexivity.
Qed.

(** An iteration whose content is a callable: the call returns or
    raises, and only in the first case do [restoreState] and [advance]
    follow. *)
Lemma render_step_callable (f : callback V) (args : list V) (w : World)
    (c : Canvas) (xy : Q * Q) :
  canvas (self w) = Live c ->
  topLeft (self w) None None = inr xy ->
  let s := self w in
  let c1 := sent c (prelude s xy) in
  render_step (Callable f) args w =
  match f c1 (fst (size s)) (snd (size s)) args with
  | (ops, Some e) =>
      (inl e, mkWorld (set_canvas (Live (sent c1 [content ops])) s) (disk w))
  | (ops, None) =>
      (inr tt,
       mkWorld (moved (next_position s)
                  (sent c1 (page_break s ++ [call restoreState; content ops]))
                  s)
         (disk w))
  end.
Proof.
  destruct w as [[ac dn sz ls gt mg td db rd ps pos cv] d].
  cbn [self disk canvas]. intros -> Ht.
  assert (Ht' : forall cv',
             topLeft (mkAveryLabel ac dn sz ls gt mg td db rd ps pos cv')
               None None = inr xy) by (intros; exact Ht).
  clear Ht. run_method. cbn -[topLeft]. rewrite Ht'.
  destruct db; cbn -[topLeft];
    destruct (f _ _ _ _) as [ops [e|]]; cbn -[topLeft]; try reflexivity;
    destruct (Z.eqb _ _); reflexivity.
Qed.

(** An iteration whose content is the name of a form. *)
Lemma render_step_str (name : string) (args : list V) (w : World)
    (c : Canvas) (xy : Q * Q) :
  canvas (self w) = Live c ->
  topLeft (self w) None None = inr xy ->
  let s := self w in
  render_step (Str name) args w =
  (inr tt,
   mkWorld (moved (next_position s)
              (sent c (page_break s
                       ++ [call restoreState; call (doForm name)]
                       ++ prelude s xy)) s)
     (disk w)).
Proof.
  destruct w as [[ac dn sz ls gt mg td db rd ps pos cv] d].
  cbn [self disk canvas]. intros -> Ht.
  assert (Ht' : forall cv',
             topLeft (mkAveryLabel ac dn sz ls gt mg td db rd ps pos cv')
               None None = inr xy) by (intros; exact Ht).
  clear Ht. run_method. cbn -[topLeft]. rewrite Ht'.
  destruct db; cbn -[topLeft]; destruct (Z.eqb _ _); reflexivity.
Qed.

(** The iteration of [render_iterator] calls its callable with the
    item as the one extra argument. *)
Lemma render_iterator_step_callable (f : callback V) (chunk : V) :
  render_iterator_step (Callable f) chunk = render_step (Callable f) [chunk].
Proof. reflexivity. Qed.

(** [topLeft] cannot fail on a sheet that has slots. *)
Lemma topLeft_defined (s : AveryLabel) :
  across s * down s <> 0 -> exists xy, topLeft s None None = inr xy.
Proof.
  intros Hcap. unfold topLeft, divmod.
  destruct (topDown s).
  - destruct (Z.eqb_spec (down s) 0) as [E|_]; [rewrite E in Hcap; lia|].
    eexists. reflexivity.
  - destruct (Z.eqb_spec (across s) 0) as [E|_]; [rewrite E in Hcap; lia|].
    eexists. reflexivity.
Qed.

(** The cursor after [advance] stays on the sheet. *)
Lemma next_position_on_sheet (s : AveryLabel) :
  cursor_ok s -> 0 <= next_position s < across s * down s.
Proof.
  unfold cursor_ok, next_position. intros H.
  destruct (Z.eqb_spec (position s + 1) (across s * down s)); lia.
Qed.

(** Whatever happens in an iteration, the sheet is the same afterwards
    and the cursor has stayed or has advanced. *)
Lemma render_step_frame (t : thing V) (args : list V) (w : World) :
  let w' := snd (render_step t args w) in
  across (self w') = across (self w) /\ down (self w') = down (self w)
  /\ (position (self w') = position (self w)
      \/ position (self w') = next_position (self w)).
Proof.
  destruct w as [[ac dn sz ls gt mg td db rd ps pos cv] d].
  destruct cv as [| |c]; [cbn; auto|cbn; auto|].
  run_method. cbn -[topLeft].
  destruct (topLeft _ _ _) as [e|xy]; [cbn; auto|].
  destruct db, t as [f|name|]; cbn -[topLeft];
    try (destruct (f _ _ _ _) as [ops [e|]]; cbn -[topLeft]);
    try (destruct (Z.eqb _ _); cbn); auto.
Qed.

Lemma render_iterator_step_frame (t : thing V) (chunk : V) (w : World) :
  let w' := snd (render_iterator_step t chunk w) in
  across (self w') = across (self w) /\ down (self w') = down (self w)
  /\ (position (self w') = position (self w)
      \/ position (self w') = next_position (self w)).
Proof.
  destruct t as [f|name|];
    [exact (render_step_frame (Callable f) [chunk] w)| |];
    destruct w as [[ac dn sz ls gt mg td db rd ps pos cv] d];
    (destruct cv as [| |c]; [cbn; auto|cbn; auto|]);
    run_method; cbn -[topLeft];
    (destruct (topLeft _ _ _) as [e|xy]; [cbn; auto|]);
    destruct db; cbn; auto.
Qed.

(** *** Reading the record after an iteration *)

Lemma flat_app (a b : list entry) : flat (a ++ b) = flat a ++ flat b.
Proof. unfold flat. apply flat_map_app. Qed.

Lemma count_app (p : canvas_op -> bool) (a b : list canvas_op) :
  count p (a ++ b) = count p a + count p b.
Proof. unfold count. rewrite List.filter_app, length_app. lia. Qed.

Lemma count_absent (p : canvas_op -> bool) (ops : list canvas_op) :
  (forall op, In op ops -> p op = false) -> count p ops = 0.
Proof.
  intros H. unfold count. induction ops as [|op ops IH]; [reflexivity|].
  cbn [List.filter]. rewrite (H op) by now left.
  apply IH. intros op' Hin. apply H. now right.
Qed.

Lemma page_ends_app (a b : list entry) :
  page_ends (a ++ b) = page_ends a + page_ends b.
Proof. unfold page_ends. now rewrite flat_app, count_app. Qed.

Lemma unrestored_app (a b : list canvas_op) :
  unrestored (a ++ b) = unrestored a + unrestored b.
Proof. unfold unrestored. rewrite !count_app. lia. Qed.

Lemma sent_sent (c : Canvas) (a b : list entry) :
  sent (sent c a) b = sent c (b ++ a).
Proof. unfold sent. cbn. now rewrite app_assoc. Qed.

(** The prelude saves one state and draws no unit and no page end. *)
Lemma prelude_accounts (s : AveryLabel) (xy : Q * Q) (l : list entry) :
  paginate (prelude s xy ++ l) = paginate l
  /\ page_ends (prelude s xy) = 0
  /\ unrestored (flat (prelude s xy)) = 1.
Proof. unfold prelude. destruct (debug s); repeat split. Qed.

Lemma moved_same (s : AveryLabel) (c : Canvas) :
  canvas s = Live c -> moved (position s) c s = s.
Proof. destruct s. cbn. now intros ->. Qed.

(** An iteration with well-behaved content puts one unit on the page
    and advances. *)
Lemma render_step_unit (t : thing V) (args : list V) (w : World)
    (c : Canvas) :
  well_behaved t ->
  canvas (self w) = Live c ->
  across (self w) * down (self w) <> 0 ->
  let s := self w in
  exists mid,
    render_step t args w =
    (inr tt,
     mkWorld (moved (next_position s) (sent c (page_break s ++ mid)) s)
       (disk w))
    /\ paginate (mid ++ log c) = (page_units (log c), open_units (log c) + 1)
    /\ page_ends mid = 0.
Proof.
  intros Hwb Hc Hcap s.
  destruct (topLeft_defined _ Hcap) as [xy Hxy].
  destruct (prelude_accounts s xy (log c)) as (Hp1 & Hp2 & _).
  destruct t as [f|name|]; [| |contradiction].
  - pose proof (render_step_callable f args w c xy Hc Hxy) as E.
    subst s. cbv zeta in E.
    specialize (Hwb (sent c (prelude (self w) xy)) (fst (size (self w)))
                  (snd (size (self w))) args).
    destruct (f _ _ _ _) as [ops r] eqn:Ef. cbn [fst snd] in Hwb.
    destruct Hwb as [Hr Hno]. subst r.
    exists ([call restoreState; content ops] ++ prelude (self w) xy).
    split; [|split].
    + rewrite E, sent_sent, app_assoc. reflexivity.
    + cbn [app paginate account]. rewrite Hp1. reflexivity.
    + rewrite page_ends_app, Hp2. unfold page_ends. cbn.
      rewrite app_nil_r. rewrite count_absent; [reflexivity|].
      intros op Hin. destruct op; try reflexivity.
      destruct Hin as [Hin|Hin]; [discriminate|contradiction].
  - exists ([call restoreState; call (doForm name)] ++ prelude s xy).
    split; [|split].
    + rewrite (render_step_str name args w c xy Hc Hxy). reflexivity.
    + cbn [app paginate account]. rewrite Hp1. reflexivity.
    + rewrite page_ends_app, Hp2. reflexivity.
Qed.

(** The accounting of a record that [advance] has extended. *)
Lemma page_break_accounts (s : AveryLabel) (mid l : list entry) :
  paginate (mid ++ l) = (page_units l, open_units l + 1) ->
  page_ends mid = 0 ->
  open_units l = position s ->
  let l' := (page_break s ++ mid) ++ l in
  open_units l' = next_position s
  /\ page_units l' =
     page_units l
     ++ (if position s + 1 =? across s * down s
         then [across s * down s] else [])
  /\ page_ends l' =
     page_ends l
     + (if position s + 1 =? across s * down s then 1 else 0).
Proof.
  intros Hmid Hends Hopen l'. subst l'.
  rewrite <- app_assoc, !page_ends_app, Hends.
  unfold open_units, page_units, page_break, next_position in *.
  destruct (Z.eqb_spec (position s + 1) (across s * down s)) as [E|E].
  - cbn [app paginate account]. rewrite Hmid. cbn [fst snd].
    rewrite Hopen, E. repeat split.
    change (page_ends [call showPage]) with 1. lia.
  - cbn [app]. rewrite Hmid. cbn [fst snd]. rewrite app_nil_r.
    repeat split; [lia|]. change (page_ends []) with 0. lia.
Qed.

(** The loop over well-behaved content, started with the cursor on the
    sheet and as many units on the open page as the cursor says: all
    iterations return, the cursor ends at [(p + n) mod capacity], each
    page finalized on the way holds [capacity] units and the open page
    holds as many units as the cursor says. *)
Lemma render_loop {A : Type} (t : thing V) (g : A -> list V) :
  well_behaved t ->
  forall (items : list A) (w : World) (c : Canvas),
    canvas (self w) = Live c ->
    cursor_ok (self w) ->
    open_units (log c) = position (self w) ->
    let cap := across (self w) * down (self w) in
    let total := position (self w) + Z.of_nat (length items) in
    exists c',
      for_each (fun a => render_step t (g a)) items w =
      (inr tt, mkWorld (moved (total mod cap) c' (self w)) (disk w))
      /\ filename c' = filename c
      /\ open_units (log c') = total mod cap
      /\ page_units (log c') =
         page_units (log c) ++ repeat cap (Z.to_nat (total / cap))
      /\ page_ends (log c') = page_ends (log c) + total / cap.
Proof.
  intros Hwb items.
  induction items as [|a items IH]; intros w c Hc Hok Hopen cap total.
  - exists c. subst total. cbn [length for_each Z.of_nat].
    unfold cursor_ok in Hok. fold cap in Hok.
    rewrite Z.add_0_r, Z.mod_small, Z.div_small by lia.
    rewrite (moved_same _ _ Hc). cbn [Z.to_nat repeat].
    rewrite app_nil_r, Z.add_0_r. destruct w. repeat split; assumption.
  - assert (Hcap : across (self w) * down (self w) <> 0)
      by (unfold cursor_ok in Hok; lia).
    destruct (render_step_unit t (g a) w c Hwb Hc Hcap)
      as (mid & Estep & Hmid & Hends).
    destruct (page_break_accounts (self w) mid (log c) Hmid Hends Hopen)
      as (Ho & Hu & He).
    set (w1 := mkWorld (moved (next_position (self w))
                          (sent c (page_break (self w) ++ mid)) (self w))
                 (disk w)) in *.
    specialize (IH w1 (sent c (page_break (self w) ++ mid)) eq_refl
                  (next_position_on_sheet _ Hok) Ho).
    destruct IH as (c' & Eloop & Hfn & Ho' & Hu' & He').
    change (across (self w1) * down (self w1)) with cap in *.
    change (position (self w1)) with (next_position (self w)) in *.
    change (log (sent c (page_break (self w) ++ mid)))
      with ((page_break (self w) ++ mid) ++ log c) in *.
    exists c'.
    assert (Hp : 0 <= position (self w) < cap) by exact Hok.
    assert (Hlen : total
                   = position (self w) + 1 + Z.of_nat (length items))
      by (subst total; cbn [length]; lia).
    assert (Hmod : (next_position (self w) + Z.of_nat (length items)) mod cap
                   = total mod cap
                   /\ (if position (self w) + 1 =? cap then 1 else 0)
                      + (next_position (self w) + Z.of_nat (length items))
                        / cap
                      = total / cap).
    { rewrite Hlen. unfold next_position. fold cap.
      destruct (Z.eqb_spec (position (self w) + 1) cap) as [E|E].
      - rewrite E.
        replace (cap + Z.of_nat (length items))
          with (Z.of_nat (length items) + 1 * cap) by lia.
        rewrite Z.mod_add, Z.div_add, !Z.add_0_l by lia.
        split; [reflexivity|lia].
      - split; reflexivity. }
    destruct Hmod as [Hmod Hdiv].
    split; [|split; [|split; [|split]]].
    + cbn [for_each]. unfold bind. rewrite Estep. fold w1.
      rewrite Eloop, Hmod. reflexivity.
    + exact Hfn.
    + now rewrite Ho', Hmod.
    + rewrite Hu', Hu, <- Hdiv, <- app_assoc. f_equal. fold cap.
      destruct (Z.eqb_spec (position (self w) + 1) cap) as [E|E].
      * rewrite Z2Nat.inj_add by
          (try lia; apply Z.div_pos; unfold next_position;
           destruct (Z.eqb _ _); lia).
        reflexivity.
      * reflexivity.
    + rewrite He', He, <- Hdiv. fold cap. lia.
Qed.

(** *** A whole document *)

(** [open] puts a new canvas in place; nothing on it is a unit or a
    page end. *)
Lemma open_fresh (name : string) (w : World) :
  exists c,
    open name w = (inr tt, mkWorld (set_canvas (Live c) (self w)) (disk w))
    /\ filename c = name
    /\ paginate (log c) = ([], 0)
    /\ page_ends (log c) = 0
    /\ unrestored (flat (log c)) = 0.
Proof.
  destruct w as [[ac dn sz ls gt mg td db rd ps pos cv] d].
  run_method. cbn. destruct db; cbn; eexists; repeat split.
Qed.

(** [close] on an open canvas: a page end if the cursor is off slot 0,
    then the document is written and the canvas dropped. *)
Lemma close_live (w : World) (c : Canvas) :
  canvas (self w) = Live c ->
  let doc :=
    sent c (call save
            :: (if position (self w) =? 0 then [] else [call showPage])) in
  close w =
  (inr tt, mkWorld (set_canvas PyNone (self w)) (doc :: disk w)).
Proof.
  destruct w as [[ac dn sz ls gt mg td db rd ps pos cv] d].
  cbn [self disk canvas position]. intros ->. run_method. cbn.
  destruct (Z.eqb pos 0); reflexivity.
Qed.

(** [render] with a number on an open canvas is the loop. *)
Lemma render_int (t : thing V) (k : Z) (args : list V) (w : World)
    (c : Canvas) :
  callable t || is_str t = true ->
  canvas (self w) = Live c ->
  render t (Int k) args w
  = for_each (fun _ => render_step t args) (range k) w.
Proof.
  intros Ht Hc. unfold render. rewrite Ht. cbn [negb].
  unfold bind, getattr_canvas. rewrite Hc. reflexivity.
Qed.

Lemma well_behaved_content (t : thing V) :
  well_behaved t -> callable t || is_str t = true.
Proof. destruct t; [reflexivity|reflexivity|contradiction]. Qed.

Lemma length_range (k : Z) : 0 <= k -> Z.of_nat (length (range k)) = k.
Proof. intros Hk. unfold range. rewrite length_map, length_seq. lia. Qed.

(** [ceil(k / c)] is the quotient, and one more when there is a
    remainder. *)
Lemma ceil_div_split (k c : Z) :
  0 < c ->
  ceil_div k c = k / c + (if k mod c =? 0 then 0 else 1).
Proof.
  intros Hc. unfold ceil_div.
  pose proof (Z.div_mod k c ltac:(lia)) as Hk.
  pose proof (Z.mod_pos_bound k c Hc) as Hr.
  destruct (Z.eqb_spec (k mod c) 0) as [E|E].
  - symmetry. apply (Z.div_unique _ _ _ (c - 1)); lia.
  - symmetry. apply (Z.div_unique _ _ _ (k mod c - 1)); lia.
Qed.

(** [m >> (k >> k')] and [(m >> k) >> k'] run alike. *)
Lemma bind_assoc {A B C : Type} (m : M A) (k : A -> M B) (k' : B -> M C)
    (w : World) :
  bind (bind m k) k' w = bind m (fun a => bind (k a) k') w.
Proof.
  unfold bind. destruct (m w) as [[e|a] w1]; [reflexivity|].
  destruct (k a w1) as [[e|b] w2]; reflexivity.
Qed.

(** [open] and [render] of [k] units of well-behaved content, from a
    renderer with its cursor on slot 0: every page finalized holds
    [capacity] units, and the open page holds the remainder. *)
Lemma rendered_pages (t : thing V) (args : list V) (k : Z)
    (s : AveryLabel) (name : string) (files : list Canvas) :
  0 <= k -> 0 < across s * down s -> position s = 0 -> well_behaved t ->
  let cap := across s * down s in
  exists c,
    (open name >> render t (Int k) args) (mkWorld s files)
    = (inr tt, mkWorld (moved (k mod cap) c s) files)
    /\ filename c = name
    /\ open_units (log c) = k mod cap
    /\ page_units (log c) = repeat cap (Z.to_nat (k / cap))
    /\ page_ends (log c) = k / cap.
Proof.
  intros Hk Hcap Hpos Hwb cap.
  destruct (open_fresh name (mkWorld s files))
    as (c0 & Eopen & Hname & Hpag & Hends & _).
  cbn [self disk] in Eopen.
  set (w0 := mkWorld (set_canvas (Live c0) s) files) in *.
  assert (Hok : cursor_ok (self w0)).
  { unfold cursor_ok. cbn. fold cap. rewrite Hpos. lia. }
  assert (Hopen : open_units (log c0) = position (self w0)).
  { unfold open_units. rewrite Hpag. cbn. now rewrite Hpos. }
  destruct (render_loop t (fun _ : Z => args) Hwb (range k) w0 c0
              eq_refl Hok Hopen)
    as (c1 & Eloop & Hfn & Ho1 & Hu1 & He1).
  change (across (self w0) * down (self w0)) with cap in *.
  change (position (self w0)) with (position s) in *.
  rewrite Hpos, length_range, Z.add_0_l in * by exact Hk.
  unfold page_units in Hu1 at 2. rewrite Hpag, Hends in *.
  cbn [fst app] in Hu1. rewrite Z.add_0_l in He1.
  exists c1. split; [|split; [|split; [|split]]];
    [|congruence|assumption|assumption|assumption].
  unfold bind. rewrite Eopen. fold w0.
  rewrite (render_int t k args w0 c0 (well_behaved_content t Hwb) eq_refl).
  rewrite Eloop. reflexivity.
Qed.

(** The document of [open], [render] of [k] units of well-behaved
    content, [close], from a renderer with its cursor on slot 0: full
    pages of [capacity] units, then a last page with the remainder if
    there is one. *)
Lemma document_pages (t : thing V) (args : list V) (k : Z)
    (s : AveryLabel) (name : string) (files : list Canvas) :
  0 <= k -> 0 < across s * down s -> position s = 0 -> well_behaved t ->
  let cap := across s * down s in
  exists doc,
    (open name >> render t (Int k) args >> close) (mkWorld s files)
    = (inr tt,
       mkWorld (set_canvas PyNone (set_position (k mod cap) s))
         (doc :: files))
    /\ filename doc = name
    /\ page_units (log doc) =
       repeat cap (Z.to_nat (k / cap))
       ++ (if k mod cap =? 0 then [] else [k mod cap])
    /\ page_ends (log doc) = ceil_div k cap.
Proof.
  intros Hk Hcap Hpos Hwb cap.
  destruct (rendered_pages t args k s name files Hk Hcap Hpos Hwb)
    as (c1 & Erun & Hname & Ho1 & Hu1 & He1).
  fold cap in Erun, Ho1, Hu1, He1.
  set (w1 := mkWorld (moved (k mod cap) c1 s) files) in *.
  pose proof (close_live w1 c1 eq_refl) as Eclose. cbv zeta in Eclose.
  change (position (self w1)) with (k mod cap) in Eclose.
  eexists. split; [|split; [|split]].
  - rewrite <- bind_assoc. unfold bind at 1. rewrite Erun, Eclose.
    reflexivity.
  - exact Hname.
  - unfold page_units in *. unfold open_units in Ho1.
    destruct (Z.eqb_spec (k mod cap) 0) as [E|E].
    + cbn [sent log app paginate account fst]. rewrite Hu1.
      now rewrite app_nil_r.
    + cbn [sent log app paginate account fst snd]. now rewrite Hu1, Ho1.
  - rewrite ceil_div_split by exact Hcap.
    unfold sent. cbn [log]. rewrite page_ends_app, He1.
    destruct (Z.eqb_spec (k mod cap) 0) as [E|E].
    + change (page_ends [call save]) with 0. lia.
    + change (page_ends [call save; call showPage]) with 1. lia.
Qed.

Lemma last_repeat {A : Type} (x d : A) (n : nat) :
  (0 < n)%nat -> List.last (repeat x n) d = x.
Proof.
  induction n as [|n IH]; [lia|]. intros _.
  destruct n as [|n]; [reflexivity|].
  change (repeat x (S (S n))) with (x :: repeat x (S n)).
  change (List.last (x :: repeat x (S n)) d)
    with (List.last (repeat x (S n)) d).
  apply IH. lia.
Qed.

(** C2.  Pagination law: [k > 0] units drawn on a grid of capacity
    [c = columns * rows] by [render] and then [close], with content that
    returns and leaves page ends to the renderer, end exactly
    [ceil(k / c)] pages, and the last page ended holds [k mod c] units,
    or [c] units when [c] divides [k]. *)
Theorem pagination_law (t : thing V) (args : list V) (k : Z)
    (s : AveryLabel) (name : string) (files : list Canvas) :
  0 < k -> 0 < across s * down s -> position s = 0 -> well_behaved t ->
  let c := across s * down s in
  exists doc w',
    (open name >> render t (Int k) args >> close) (mkWorld s files)
    = (inr tt, w')
    /\ disk w' = doc :: files
    /\ page_ends (log doc) = ceil_div k c
    /\ Z.of_nat (length (page_units (log doc))) = ceil_div k c
    /\ List.last (page_units (log doc)) 0
       = (if k mod c =? 0 then c else k mod c).
Proof.
  intros Hk Hcap Hpos Hwb c.
  destruct (document_pages t args k s name files ltac:(lia) Hcap Hpos Hwb)
    as (doc & Erun & _ & Hu & He).
  fold c in Erun, Hu, He.
  exists doc. eexists. split; [exact Erun|]. split; [reflexivity|].
  split; [exact He|].
  assert (Hq : 0 <= k / c) by (apply Z.div_pos; lia).
  rewrite Hu, ceil_div_split by exact Hcap.
  destruct (Z.eqb_spec (k mod c) 0) as [E|E].
  - rewrite app_nil_r, repeat_length. split; [lia|].
    apply last_repeat.
    pose proof (Z.div_mod k c ltac:(lia)). nia.
  - rewrite length_app, repeat_length. cbn [length].
    split; [lia|]. apply last_last.
Qed.

(** C5.  Edge cases of pagination, from a renderer with its cursor on
    slot 0: (a) [open], no unit, [close] writes a document without a
    page end; (b) drawing exactly [columns * rows] units ends exactly
    one page and leaves the cursor on slot 0, and the [close] that
    follows adds no page end. *)
Theorem pagination_edge_cases (t : thing V) (args : list V)
    (s : AveryLabel) (name : string) (files : list Canvas) :
  position s = 0 -> well_behaved t ->
  (exists doc,
     (open name >> render t (Int 0) args >> close) (mkWorld s files)
     = (inr tt, mkWorld (set_canvas PyNone s) (doc :: files))
     /\ page_ends (log doc) = 0
     /\ page_units (log doc) = [])
  /\ (0 < across s * down s ->
      let c := across s * down s in
      exists c1 doc,
        (open name >> render t (Int c) args) (mkWorld s files)
        = (inr tt, mkWorld (moved 0 c1 s) files)
        /\ page_ends (log c1) = 1
        /\ page_units (log c1) = [c]
        /\ close (mkWorld (moved 0 c1 s) files)
           = (inr tt, mkWorld (set_canvas PyNone s) (doc :: files))
        /\ page_ends (log doc) = 1
        /\ page_units (log doc) = [c]).
Proof.
  intros Hpos Hwb. split.
  - pose proof (well_behaved_content t Hwb) as Ht.
    destruct s as [ac dn sz ls gt mg td db rd ps pos cv].
    cbn [position] in Hpos. subst pos.
    unfold render. rewrite Ht. cbn [negb]. run_method. cbn.
    destruct db; cbn; eexists; repeat split.
  - intros Hcap c.
    destruct (rendered_pages t args c s name files ltac:(lia) Hcap Hpos Hwb)
      as (c1 & Erun & _ & Ho & Hu & He).
    fold c in Erun, Ho, Hu, He.
    rewrite Z.mod_same, Z.div_same in * by lia.
    exists c1. eexists. split; [exact Erun|]. split; [exact He|].
    split; [exact Hu|].
    pose proof (close_live (mkWorld (moved 0 c1 s) files) c1 eq_refl)
      as Eclose.
    cbv zeta in Eclose. cbn [self disk] in Eclose.
    change (position (moved 0 c1 s)) with 0 in Eclose.
    cbn [Z.eqb] in Eclose.
    assert (Es : set_canvas PyNone (moved 0 c1 s) = set_canvas PyNone s)
      by (destruct s; cbn in *; now subst).
    rewrite Es in Eclose.
    split; [exact Eclose|]. split.
    + unfold sent. cbn [log]. rewrite page_ends_app, He. reflexivity.
    + unfold page_units in *. cbn. exact Hu.
Qed.

End Engine.

(** * Content that raises *)

Section Failure.

Context {V : Type}.

(** A loop stops at the first iteration that raises. *)
Lemma for_each_raises {A : Type} (body : A -> M unit) (a : A)
    (rest : list A) (w w' : World) (e : exn) :
  body a w = (inl e, w') -> for_each body (a :: rest) w = (inl e, w').
Proof. intros E. cbn [for_each]. unfold bind. now rewrite E. Qed.

Lemma range_positive (k : Z) : 0 < k -> exists rest, range k = 0 :: rest.
Proof.
  intros Hk. unfold range.
  destruct (Z.to_nat k) as [|n] eqn:E; [lia|].
  eexists. reflexivity.
Qed.

Lemma unrestored_page_break (s : AveryLabel) :
  unrestored (flat (page_break s)) = 0.
Proof. unfold page_break. destruct (Z.eqb _ _); reflexivity. Qed.

(** C3, as the code has it.  In an iteration of [render] or of
    [render_iterator], the graphics state saved at the start is
    restored when the content returns: [restoreState] follows the
    content, and a content that restores what it saves leaves as many
    states unrestored as before the iteration.  When the content
    callable raises, the exception leaves the iteration right away: no
    [restoreState] follows the content, and the state saved at the start
    stays unrestored. *)
Theorem restore_when_content_returns (f : callback V) (name : string)
    (args : list V) (chunk : V) (w : World) (c : Canvas) (xy : Q * Q) :
  canvas (self w) = Live c ->
  topLeft (self w) None None = inr xy ->
  let s := self w in
  let before := unrestored (flat (log c)) in
  let outcome (step : M unit) (params : list V) : Prop :=
    match f (sent c (prelude s xy)) (fst (size s)) (snd (size s)) params with
    | (ops, None) =>
        exists c',
          step w = (inr tt, mkWorld (moved (next_position s) c' s) (disk w))
          /\ log c' =
             page_break s
             ++ call restoreState :: content ops :: prelude s xy ++ log c
          /\ (unrestored ops = 0 -> unrestored (flat (log c')) = before)
    | (ops, Some e) =>
        exists c',
          step w = (inl e, mkWorld (set_canvas (Live c') s) (disk w))
          /\ log c' = content ops :: prelude s xy ++ log c
          /\ (unrestored ops = 0 -> unrestored (flat (log c')) = before + 1)
    end in
  outcome (render_step (Callable f) args) args
  /\ outcome (render_iterator_step (Callable f) chunk) [chunk]
  /\ exists c',
       render_step (Str name) args w
       = (inr tt, mkWorld (moved (next_position s) c' s) (disk w))
       /\ log c' =
          page_break s
          ++ call restoreState :: call (doForm name) :: prelude s xy ++ log c
       /\ unrestored (flat (log c')) = before.
Proof.
  intros Hc Hxy s before outcome.
  destruct (prelude_accounts s xy (log c)) as (_ & _ & Hsaved).
  assert (Hcall : forall params, outcome (render_step (Callable f) params) params).
  { intros params. unfold outcome.
    pose proof (render_step_callable f params w c xy Hc Hxy) as E.
    cbv zeta in E. fold s in E.
    destruct (f _ _ _ _) as [ops [e|]]; eexists; (split; [exact E|]).
    - split; [reflexivity|]. intros Hops. unfold sent. cbn [log app].
      change (content ops :: prelude s xy ++ log c)
        with ([content ops] ++ prelude s xy ++ log c).
      rewrite !flat_app, !unrestored_app, Hsaved. cbn [flat flat_map ops_of].
      rewrite !app_nil_r, Hops. fold before. lia.
    - split; [unfold sent; cbn [log]; now rewrite <- app_assoc|].
      intros Hops. unfold sent. cbn [log].
      change [call restoreState; content ops]
        with ([call restoreState] ++ [content ops]).
      rewrite !flat_app, !unrestored_app, Hsaved, unrestored_page_break.
      cbn [flat flat_map ops_of app]. rewrite !app_nil_r, Hops. fold before.
      change (unrestored [restoreState]) with (-1). lia. }
  split; [apply Hcall|]. split; [exact (Hcall [chunk])|].
  eexists. split; [exact (render_step_str name args w c xy Hc Hxy)|].
  split; [unfold sent; cbn [log]; now rewrite <- app_assoc|].
  unfold sent. cbn [log]. fold s.
  rewrite !flat_app, !unrestored_app, Hsaved, unrestored_page_break.
  fold before.
  change (unrestored (flat [call restoreState; call (doForm name)]))
    with (-1).
  lia.
Qed.

(** C4.  When the content callable raises in an iteration, the
    exception leaves [render] (and [render_iterator]) and the renderer
    is as it was before the iteration but for what its canvas received:
    the cursor has not moved and the renderer has sent no page end. *)
Theorem content_failure_keeps_cursor (f : callback V) (args : list V)
    (w : World) (c : Canvas) (xy : Q * Q) (ops : list canvas_op) (e : exn) :
  canvas (self w) = Live c ->
  topLeft (self w) None None = inr xy ->
  f (sent c (prelude (self w) xy)) (fst (size (self w)))
    (snd (size (self w))) args = (ops, Some e) ->
  let sent_now := content ops :: prelude (self w) xy in
  let w' := mkWorld (set_canvas (Live (sent c sent_now)) (self w)) (disk w) in
  render_step (Callable f) args w = (inl e, w')
  /\ position (self w') = position (self w)
  /\ ~ In (call showPage) sent_now
  /\ (forall k, 0 < k -> render (Callable f) (Int k) args w = (inl e, w'))
  /\ (forall chunk rest other,
        args = [chunk] ->
        render (Callable f) (Iter (chunk :: rest)) other w = (inl e, w')
        /\ render_iterator (Callable f) (chunk :: rest) w = (inl e, w')).
Proof.
  intros Hc Hxy Hf sent_now w'.
  assert (Estep : render_step (Callable f) args w = (inl e, w')).
  { rewrite (render_step_callable f args w c xy Hc Hxy). cbv zeta.
    rewrite Hf. unfold w', sent_now. now rewrite sent_sent. }
  split; [exact Estep|]. split; [reflexivity|]. split.
  - unfold sent_now, prelude.
    destruct (debug (self w)); cbn; intuition discriminate.
  - split.
    + intros k Hk. rewrite (render_int _ _ _ _ c) by (reflexivity || exact Hc).
      destruct (range_positive k Hk) as [rest ->].
      now apply for_each_raises.
    + intros chunk rest other ->.
      assert (E : render_iterator (Callable f) (chunk :: rest) w = (inl e, w')).
      { unfold render_iterator, bind, getattr_canvas. rewrite Hc.
        now apply for_each_raises. }
      split; [exact E|exact E].
Qed.

End Failure.

(** C3, as claimed, fails: the callable [broken] raises after the
    iteration has saved the state, and the canvas is left with the
    saved state and no [restoreState]. *)
Lemma restore_skipped_when_content_raises :
  render_step (Callable broken) [] fresh_C
  = (inl (Raised "boom"),
     mkWorld
       (set_canvas
          (Live (mkCanvas "out.pdf" LETTER
                   [content [drawing "half"]; call (translate 18 612);
                    call saveState]))
          (self fresh_C)) [])
  /\ unrestored (flat []) = 0
  /\ unrestored (flat [content [drawing "half"]; call (translate 18 612);
                       call saveState]) = 1
  /\ ~ In restoreState (flat [content [drawing "half"];
                              call (translate 18 612); call saveState]).
Proof.
  split; [reflexivity|]. split; [reflexivity|]. split; [reflexivity|].
  cbn. intuition discriminate.
Qed.

(** * The cursor *)

(** Every template of the catalogue has at least one column and one
    row. *)
Lemma catalogue_positive (label : string) (data : LabelInfo.t) :
  labelInfo !! label = Some data ->
  0 < LabelInfo.labels_horizontal data /\ 0 < LabelInfo.labels_vertical data.
Proof.
  intros H. unfold labelInfo in H. apply elem_of_list_to_map_2 in H.
  unfold labelInfo_items in H.
  repeat (apply elem_of_cons in H;
          destruct H as [H|H]; [injection H as _ ->; cbn; lia|]).
  now apply elem_of_nil in H.
Qed.

Section Cursor.

Context {V : Type}.

Lemma on_sheet_step (a d : Z) (w w' : World) :
  on_sheet a d w ->
  across (self w') = across (self w) /\ down (self w') = down (self w)
  /\ (position (self w') = position (self w)
      \/ position (self w') = next_position (self w)) ->
  on_sheet a d w'.
Proof.
  intros (Ha & Hd & Hp) (Ha' & Hd' & Hp'). unfold on_sheet.
  rewrite Ha', Hd', Ha, Hd. repeat split; try reflexivity.
  - destruct Hp' as [->| ->]; [lia|].
    pose proof (next_position_on_sheet (self w)) as H.
    unfold cursor_ok in H. rewrite Ha, Hd in H. lia.
  - destruct Hp' as [->| ->]; [lia|].
    pose proof (next_position_on_sheet (self w)) as H.
    unfold cursor_ok in H. rewrite Ha, Hd in H. lia.
Qed.

Lemma open_keeps (a d : Z) (name : string) (w : World) :
  on_sheet a d w -> on_sheet a d (snd (open name w)).
Proof.
  destruct w as [[ac dn sz ls gt mg td db rd ps pos cv] fs].
  unfold on_sheet. run_method. destruct db; cbn; auto.
Qed.

Lemma close_keeps (a d : Z) (w : World) :
  on_sheet a d w -> on_sheet a d (snd (close w)).
Proof.
  destruct w as [[ac dn sz ls gt mg td db rd ps pos cv] fs].
  unfold on_sheet. run_method. cbn.
  destruct (Z.eqb pos 0), cv; cbn; auto.
Qed.

Lemma render_iterator_keeps (a d : Z) (func : thing V) (iterator : list V)
    (w : World) :
  on_sheet a d w -> on_sheet a d (snd (render_iterator func iterator w)).
Proof.
  intros Hw. unfold render_iterator, bind, getattr_canvas.
  destruct (canvas (self w)); [exact Hw| |];
    (apply for_each_keeps; [|exact Hw]);
    intros chunk w0 Hw0;
    exact (on_sheet_step a d w0 _ Hw0
             (render_iterator_step_frame func chunk w0)).
Qed.

Lemma render_keeps (a d : Z) (t : thing V) (count : count_arg V)
    (args : list V) (w : World) :
  on_sheet a d w -> on_sheet a d (snd (render t count args w)).
Proof.
  intros Hw. unfold render.
  destruct (negb (callable t || is_str t)); [exact Hw|].
  destruct count as [n|iterator]; [|now apply render_iterator_keeps].
  unfold bind, getattr_canvas.
  destruct (canvas (self w)); [exact Hw| |];
    (apply for_each_keeps; [|exact Hw]);
    intros i w0 Hw0;
    exact (on_sheet_step a d w0 _ Hw0 (render_step_frame t args w0)).
Qed.

Lemma run_keeps (a d : Z) (calls : list (method_call V)) (w : World) :
  on_sheet a d w -> on_sheet a d (run calls w).
Proof.
  revert w. induction calls as [|m calls IH]; intros w Hw; [exact Hw|].
  cbn [run]. apply IH.
  destruct m as [name|t count args|func iterator|]; cbn [perform].
  - now apply open_keeps.
  - now apply render_keeps.
  - now apply render_iterator_keeps.
  - now apply close_keeps.
Qed.

(** C8.  For a renderer constructed from the catalogue without keyword
    arguments, the cursor is 0 at construction and stays in
    [0 .. columns * rows - 1] over every sequence of [open], [render],
    [render_iterator] and [close] calls, whatever the content does; and
    from every state so reached, an [advance] on the open canvas moves
    the cursor to 0 exactly when the increment reaches
    [columns * rows], and to the next slot otherwise. *)
Theorem cursor_invariant (label : string) (dbg : bool) (s : AveryLabel)
    (files : list Canvas) (calls : list (method_call V)) :
  __init__ label dbg [] = inr s ->
  position s = 0
  /\ cursor_ok s
  /\ let w := run calls (mkWorld s files) in
     let capacity := across s * down s in
     cursor_ok (self w)
     /\ across (self w) * down (self w) = capacity
     /\ forall c, canvas (self w) = Live c ->
          exists w',
            advance w = (inr tt, w')
            /\ cursor_ok (self w')
            /\ (position (self w') = 0 <-> position (self w) + 1 = capacity)
            /\ (position (self w) + 1 <> capacity ->
                position (self w') = position (self w) + 1).
Proof.
  unfold __init__. intros H.
  destruct (labelInfo !! label) as [data|] eqn:E; [|discriminate].
  injection H as <-.
  destruct (catalogue_positive label data E) as [Hc Hr].
  assert (H0 : on_sheet (LabelInfo.labels_horizontal data)
                 (LabelInfo.labels_vertical data)
                 (mkWorld (init_from data dbg []) files)).
  { unfold on_sheet. cbn. repeat split; nia. }
  split; [reflexivity|]. split; [unfold cursor_ok; cbn; nia|].
  cbv zeta.
  set (w := run calls (mkWorld (init_from data dbg []) files)).
  set (capacity := across (init_from data dbg [])
                   * down (init_from data dbg [])).
  pose proof (run_keeps _ _ calls _ H0) as (Ha & Hd & Hp).
  fold w in Ha, Hd, Hp.
  assert (Hcap : across (self w) * down (self w) = capacity)
    by (rewrite Ha, Hd; reflexivity).
  assert (Hok : cursor_ok (self w))
    by (unfold cursor_ok; rewrite Ha, Hd; exact Hp).
  split; [exact Hok|]. split; [exact Hcap|].
  intros c Hlive. eexists. split; [exact (advance_live w c Hlive)|].
  cbn [self]. change (position (moved _ _ _)) with (next_position (self w)).
  split.
  - unfold cursor_ok. change (across (moved _ _ _)) with (across (self w)).
    change (down (moved _ _ _)) with (down (self w)).
    change (position (moved _ _ _)) with (next_position (self w)).
    now apply next_position_on_sheet.
  - unfold next_position. rewrite Hcap. unfold cursor_ok in Hok.
    destruct (Z.eqb_spec (position (self w) + 1) capacity); split; lia.
Qed.

(** C10.  [render] asserts that its content is callable or a string:
    for any other object it raises [AssertionError] at once, with the
    renderer, its canvas and the files as they were; a call that does
    anything else had content that is callable or a string. *)
Theorem render_asserts_content (t : thing V) (count : count_arg V)
    (args : list V) (w : World) :
  (callable t = false -> is_str t = false ->
   render t count args w = (inl AssertionError, w))
  /\ (render t count args w <> (inl AssertionError, w) ->
      callable t = true \/ is_str t = true).
Proof.
  split.
  - intros Hc Hs. unfold render. now rewrite Hc, Hs.
  - intros H. destruct t as [f|name|]; [now left|now right|].
    exfalso. apply H. reflexivity.
Qed.

(** C9.  A template name that is not a key of the catalogue makes
    construction raise [KeyError], so that the usage sequence stops
    before [open] and the files are as they were; a name that is a key
    makes construction return a renderer, which has no canvas yet unless
    one was passed as keyword. *)
Theorem unknown_template_fails_first (label : string) (dbg : bool)
    (kwargs : list kwarg) (name : string) (t : thing V)
    (count : count_arg V) (args : list V) (files : list Canvas) :
  (labelInfo !! label = None ->
   __init__ label dbg kwargs = inl (KeyError label)
   /\ usage label dbg kwargs name t count args files
      = (inl (KeyError label), files))
  /\ (forall data, labelInfo !! label = Some data ->
      __init__ label dbg kwargs = inr (init_from data dbg kwargs)
      /\ ((forall v, ~ In (kw_canvas v) kwargs) ->
          canvas (init_from data dbg kwargs) = Unset)).
Proof.
  split.
  - intros H. unfold usage, __init__. rewrite H. split; reflexivity.
  - intros data H. unfold __init__. rewrite H. split; [reflexivity|].
    unfold init_from, dict_update.
    set (s0 := mkAveryLabel _ _ _ _ _ _ _ _ _ _ _ _).
    assert (H0 : canvas s0 = Unset) by reflexivity.
    clearbody s0. revert s0 H0.
    induction kwargs as [|k ks IH]; intros s0 H0 Hno; [exact H0|].
    cbn [fold_left]. apply IH.
    + destruct k; cbn; try exact H0. exfalso. apply (Hno v). now left.
    + intros v Hin. apply (Hno v). now right.
Qed.

End Cursor.

(** * The theorems at work on the template of Scenario C *)

Lemma draw_qr_well_behaved : well_behaved (Callable draw_qr).
Proof.
  intros c width height args. split; [reflexivity|].
  cbn. intuition discriminate.
Defined.

Lemma pagination_law_witness :
  exists doc w',
    (open "out.pdf" >> render (Callable draw_qr) (Int 11) [] >> close)
      (mkWorld (init_from scenario_C false []) [])
    = (inr tt, w')
    /\ disk w' = [doc]
    /\ page_ends (log doc) = 2
    /\ Z.of_nat (length (page_units (log doc))) = 2
    /\ List.last (page_units (log doc)) 0 = 1.
Proof.
  exact (pagination_law (Callable draw_qr) [] 11
           (init_from scenario_C false []) "out.pdf" []
           ltac:(lia) ltac:(reflexivity) ltac:(reflexivity)
           draw_qr_well_behaved).
Defined.

Lemma pagination_edge_cases_witness :
  (exists doc,
     (open "out.pdf" >> render (Callable draw_qr) (Int 0) [] >> close)
       (mkWorld (init_from scenario_C false []) [])
     = (inr tt,
        mkWorld (set_canvas PyNone (init_from scenario_C false [])) [doc])
     /\ page_ends (log doc) = 0
     /\ page_units (log doc) = [])
  /\ exists c1 doc,
       (open "out.pdf" >> render (Callable draw_qr) (Int 10) [])
         (mkWorld (init_from scenario_C false []) [])
       = (inr tt, mkWorld (moved 0 c1 (init_from scenario_C false [])) [])
       /\ page_ends (log c1) = 1
       /\ page_units (log c1) = [10]
       /\ close (mkWorld (moved 0 c1 (init_from scenario_C false [])) [])
          = (inr tt,
             mkWorld (set_canvas PyNone (init_from scenario_C false []))
               [doc])
       /\ page_ends (log doc) = 1
       /\ page_units (log doc) = [10].
Proof.
  destruct (pagination_edge_cases (Callable draw_qr) []
              (init_from scenario_C false []) "out.pdf" []
              ltac:(reflexivity) draw_qr_well_behaved) as [A B].
  split; [exact A|exact (B ltac:(reflexivity))].
Defined.

Lemma restore_when_content_returns_witness :
  exists c',
    render_step (Callable broken) [] fresh_C
    = (inl (Raised "boom"),
       mkWorld (set_canvas (Live c') (self fresh_C)) (disk fresh_C))
    /\ log c' =
       content [drawing "half"]
       :: prelude (self fresh_C) (18, 612)%Q
          ++ log (mkCanvas "out.pdf" LETTER [])
    /\ (unrestored [drawing "half"] = 0 ->
        unrestored (flat (log c')) = unrestored (flat []) + 1).
Proof.
  exact (proj1 (restore_when_content_returns broken "form" [] 0 fresh_C
                  (mkCanvas "out.pdf" LETTER []) (18, 612)%Q
                  eq_refl eq_refl)).
Defined.

Lemma content_failure_keeps_cursor_witness :
  render (Callable broken) (Int 3) [] fresh_C
  = (inl (Raised "boom"),
     mkWorld
       (set_canvas
          (Live (sent (mkCanvas "out.pdf" LETTER [])
                   (content [drawing "half"]
                    :: prelude (self fresh_C) (18, 612)%Q)))
          (self fresh_C)) (disk fresh_C)).
Proof.
  destruct (content_failure_keeps_cursor broken [] fresh_C
              (mkCanvas "out.pdf" LETTER []) (18, 612)%Q
              [drawing "half"] (Raised "boom") eq_refl eq_refl eq_refl)
    as (_ & _ & _ & A & _).
  exact (A 3 ltac:(lia)).
Defined.

Lemma cursor_invariant_witness :
  cursor_ok
    (self (run [call_open "out.pdf";
                call_render (Callable draw_qr) (Int 11) [];
                call_render (Callable broken) (Int 2) [];
                call_close]
             (mkWorld (init_from scenario_C false []) []))).
Proof.
  exact (proj1 (proj2 (proj2
           (cursor_invariant "avery5163" false
              (init_from scenario_C false []) []
              [call_open "out.pdf";
               call_render (Callable draw_qr) (Int 11) [];
               call_render (Callable broken) (Int 2) [];
               call_close]
              ltac:(vm_compute; reflexivity))))).
Defined.

Lemma render_asserts_content_witness :
  render (@Other Z) (Int 3) [] fresh_C = (inl AssertionError, fresh_C).
Proof.
  exact (proj1 (render_asserts_content (@Other Z) (Int 3) [] fresh_C)
           eq_refl eq_refl).
Defined.

Lemma unknown_template_fails_first_witness :
  (__init__ "avery5164" false [] = inl (KeyError "avery5164")
   /\ usage "avery5164" false [] "out.pdf" (Callable draw_qr) (Int 3) [] []
      = (inl (KeyError "avery5164"), []))
  /\ __init__ "avery5163" false [] = inr (init_from scenario_C false []).
Proof.
  split.
  - exact (proj1 (unknown_template_fails_first "avery5164" false []
                    "out.pdf" (Callable draw_qr) (Int 3) [] [])
             ltac:(vm_compute; reflexivity)).
  - exact (proj1 (proj2 (unknown_template_fails_first "avery5163" false []
                           "out.pdf" (Callable draw_qr) (Int 3) [] [])
                    scenario_C ltac:(vm_compute; reflexivity))).
Defined.

(** * Further properties of the geometry *)

Ltac absent_kwarg :=
  let v := fresh "v" in
  let H := fresh "H" in
  intros v H; cbn in H; intuition discriminate.

Lemma on_pageb_true (s : AveryLabel) (xy : Q * Q) :
  on_pageb s xy = true -> on_page s xy.
Proof.
  unfold on_pageb, on_page. rewrite !andb_true_iff, !Qle_bool_iff. tauto.
Qed.

(** The check over all slots is sound. *)
Lemma all_slots_on_page_true (s : AveryLabel) (i : Z) (xy : Q * Q) :
  all_slots_on_page s = true ->
  0 <= i < across s * down s ->
  topLeft s (Some i) None = inr xy ->
  on_page s xy.
Proof.
  unfold all_slots_on_page. rewrite forallb_forall. intros Hall Hi E.
  specialize (Hall i (proj2 (in_range _ i) Hi)). rewrite E in Hall.
  now apply on_pageb_true.
Qed.

Lemma catalogue_checked :
  Forall (fun kv => all_slots_on_page (init_from (snd kv) false []) = true)
    labelInfo_items.
Proof.
  unfold labelInfo_items.
  repeat (apply Forall_cons; split; [vm_compute; reflexivity|]).
  apply Forall_nil. exact I.
Qed.

(** X2.  Every template of the catalogue keeps its labels on its page:
    for each slot of the sheet, the label at the origin [topLeft]
    returns lies within the page size of the template. *)
Theorem catalogue_labels_fit (label : string) (dbg : bool) (s : AveryLabel)
    (i : Z) (xy : Q * Q) :
  __init__ label dbg [] = inr s ->
  0 <= i < across s * down s ->
  topLeft s (Some i) None = inr xy ->
  on_page s xy.
Proof.
  unfold __init__. intros H Hi E.
  destruct (labelInfo !! label) as [data|] eqn:El; [|discriminate].
  injection H as <-.
  unfold labelInfo in El. apply elem_of_list_to_map_2 in El.
  pose proof (proj1 (Forall_forall _ _) catalogue_checked _ El) as Hall.
  cbn [snd] in Hall.
  exact (all_slots_on_page_true (init_from data false []) i xy Hall Hi E).
Qed.

Lemma placement_free_setattr (k : kwarg) (s : AveryLabel) (i : Z) :
  placement_free k = true ->
  topLeft (setattr k s) (Some i) None = topLeft s (Some i) None.
Proof. destruct k; (discriminate || reflexivity). Qed.

(** X4.  Keyword arguments that set [size], [debug], [radius],
    [position] or [canvas] do not move any label: the spacing
    [labelsep] is computed from the template before the keywords are
    applied, so a renderer built with them has the origins of the one
    built without. *)
Theorem size_keyword_keeps_origins (data : LabelInfo.t) (dbg : bool)
    (kwargs : list kwarg) (i : Z) :
  forallb placement_free kwargs = true ->
  topLeft (init_from data dbg kwargs) (Some i) None
  = topLeft (init_from data dbg []) (Some i) None.
Proof.
  unfold init_from, dict_update.
  set (s0 := mkAveryLabel _ _ _ _ _ _ _ _ _ _ _ _).
  cbn [fold_left]. clearbody s0. revert s0.
  induction kwargs as [|k ks IH]; intros s0 H; [reflexivity|].
  cbn [forallb] in H. apply andb_true_iff in H as [Hk Hks].
  cbn [fold_left]. rewrite IH by exact Hks.
  now apply placement_free_setattr.
Qed.

Lemma catalogue_labels_fit_witness :
  on_page (init_from scenario_C false []) (306, 36)%Q.
Proof.
  exact (catalogue_labels_fit "avery5163" false
           (init_from scenario_C false []) 9 (306, 36)%Q
           ltac:(vm_compute; reflexivity) ltac:(cbn; lia) eq_refl).
Defined.

Lemma size_keyword_keeps_origins_witness :
  topLeft (init_from scenario_C false [kw_size (10, 10)%Q; kw_debug true])
    (Some 7) None
  = topLeft (init_from scenario_C false []) (Some 7) None.
Proof.
  exact (size_keyword_keeps_origins scenario_C false
           [kw_size (10, 10)%Q; kw_debug true] 7 eq_refl).
Defined.

(** * Further properties of the render loop *)

Section Calls.

Context {V : Type}.

(** A loop over [l1 ++ l2] is the loop over [l1], then over [l2]. *)
Lemma for_each_app {A : Type} (body : A -> M unit) (l1 l2 : list A)
    (w : World) :
  for_each body (l1 ++ l2) w
  = bind (for_each body l1) (fun _ => for_each body l2) w.
Proof.
  revert w. induction l1 as [|a l1 IH]; intros w; [reflexivity|].
  cbn [app for_each]. unfold bind.
  destruct (body a w) as [[e|[]] w1]; [reflexivity|].
  specialize (IH w1). unfold bind in IH. exact IH.
Qed.

(** A loop that ignores its items depends on their number only. *)
Lemma for_each_const {A B : Type} (body : M unit) (l : list A) (l' : list B)
    (w : World) :
  length l = length l' ->
  for_each (fun _ => body) l w = for_each (fun _ => body) l' w.
Proof.
  revert l' w. induction l as [|a l IH]; intros [|b l'] w Hlen;
    try discriminate; [reflexivity|].
  cbn [for_each]. unfold bind. destruct (body w) as [[e|[]] w1];
    [reflexivity|].
  apply IH. now injection Hlen.
Qed.

(** An iteration leaves the files alone and never unsets the canvas
    attribute. *)
Lemma render_step_keeps_files (t : thing V) (args : list V) (w : World) :
  let w' := snd (render_step t args w) in
  disk w' = disk w /\ (canvas (self w) <> Unset -> canvas (self w') <> Unset).
Proof.
  destruct w as [[ac dn sz ls gt mg td db rd ps pos cv] d].
  destruct cv as [| |c]; [cbn; auto|cbn; auto|].
  run_method. cbn -[topLeft].
  destruct (topLeft _ _ _) as [e|xy]; [cbn; split; [reflexivity|discriminate]|].
  destruct db, t as [f|name|]; cbn -[topLeft];
    try (destruct (f _ _ _ _) as [ops [e|]]; cbn -[topLeft]);
    try (destruct (Z.eqb _ _); cbn); split; (reflexivity || discriminate).
Qed.

Lemma render_iterator_step_keeps_files (t : thing V) (chunk : V)
    (w : World) :
  disk (snd (render_iterator_step t chunk w)) = disk w.
Proof.
  destruct t as [f|name|];
    [exact (proj1 (render_step_keeps_files (Callable f) [chunk] w))| |];
    destruct w as [[ac dn sz ls gt mg td db rd ps pos cv] d];
    (destruct cv as [| |c]; [reflexivity|reflexivity|]);
    run_method; cbn -[topLeft];
    (destruct (topLeft _ _ _) as [e|xy]; [reflexivity|]);
    destruct db; reflexivity.
Qed.

Lemma getattr_canvas_set (w : World) :
  canvas (self w) <> Unset -> getattr_canvas w = (inr (canvas (self w)), w).
Proof.
  unfold getattr_canvas. destruct (canvas (self w)); [contradiction| |];
    reflexivity.
Qed.

Lemma range_nonpositive (k : Z) : k <= 0 -> range k = [].
Proof.
  intros Hk. unfold range. now replace (Z.to_nat k) with 0%nat by lia.
Qed.

(** X5.  Drawing [m] units and then [n] units with the same content
    and arguments is drawing [m + n] units: the two calls and the one
    call return or raise alike and leave the same renderer, canvas and
    files, whatever the content does. *)
Theorem render_counts_add (t : thing V) (m n : Z) (args : list V)
    (w : World) :
  0 <= m -> 0 <= n ->
  (render t (Int m) args >> render t (Int n) args) w
  = render t (Int (m + n)) args w.
Proof.
  intros Hm Hn. unfold render.
  destruct (negb (callable t || is_str t)); [reflexivity|].
  set (body := render_step t args).
  destruct (canvas (self w)) as [| |c] eqn:Ec.
  { unfold bind, getattr_canvas. rewrite Ec. reflexivity. }
  all: assert (Hset : canvas (self w) <> Unset) by (rewrite Ec; discriminate).
  all: pose proof (for_each_keeps
                     (fun w0 => canvas (self w0) <> Unset)
                     (fun _ : Z => body)
                     (fun _ w0 H0 =>
                        proj2 (render_step_keeps_files t args w0) H0)
                     (range m) w Hset) as Hkept.
  all: unfold bind; rewrite (getattr_canvas_set w Hset).
  all: rewrite (for_each_const body (range (m + n)) (range m ++ range n))
         by (unfold range;
             rewrite length_app, !length_map, !length_seq; lia).
  all: rewrite for_each_app; unfold bind.
  all: destruct (for_each (fun _ : Z => body) (range m) w) as [[e|[]] w1];
         [reflexivity|].
  all: cbn [snd] in Hkept; rewrite (getattr_canvas_set w1 Hkept).
  all: reflexivity.
Qed.

(** X6.  Without a canvas [render] cannot draw.  Before [open] it
    raises [AttributeError] whatever the count, even for no unit; after
    [close] it raises [AttributeError] as soon as there is a unit to
    draw and returns when there is none.  In every case the renderer and
    the files are as they were. *)
Theorem render_without_canvas (t : thing V) (count : count_arg V)
    (args : list V) (w : World) :
  callable t || is_str t = true ->
  (canvas (self w) = Unset ->
   render t count args w = (inl AttributeError, w))
  /\ (canvas (self w) = PyNone ->
      render t count args w
      = (match count with
         | Int k => if 0 <? k then inl AttributeError else inr tt
         | Iter [] => inr tt
         | Iter (_ :: _) => inl AttributeError
         end, w)).
Proof.
  intros Ht. unfold render. rewrite Ht. cbn [negb]. split; intros Hc.
  - destruct count; unfold render_iterator, bind, getattr_canvas;
      rewrite Hc; reflexivity.
  - destruct count as [k|[|chunk rest]].
    + unfold bind, getattr_canvas. rewrite Hc.
      destruct (Z.ltb_spec 0 k) as [Hk|Hk].
      * destruct (range_positive k Hk) as [rest ->].
        apply for_each_raises. unfold render_step, bind, canvas_call.
        now rewrite Hc.
      * now rewrite range_nonpositive.
    + unfold render_iterator, bind, getattr_canvas. now rewrite Hc.
    + unfold render_iterator, bind, getattr_canvas. rewrite Hc.
      apply for_each_raises.
      unfold render_iterator_step, bind, canvas_call. now rewrite Hc.
Qed.

(** X7.  [close] does not write twice.  Whenever [close] returns, it
    has dropped the canvas and added exactly one document, whose last
    operation is [save], and a [close] right after it raises
    [AttributeError] and changes nothing.  Without an open canvas
    (before [open], or after such a [close]) [close] raises
    [AttributeError] and changes nothing. *)
Theorem close_after_close_raises (w w1 : World) :
  (close w = (inr tt, w1) ->
   canvas (self w1) = PyNone
   /\ (exists doc earlier,
         disk w1 = doc :: disk w /\ log doc = call save :: earlier)
   /\ close w1 = (inl AttributeError, w1))
  /\ ((forall c, canvas (self w) <> Live c) ->
      close w = (inl AttributeError, w)).
Proof.
  assert (Hdead : forall w0, (forall c, canvas (self w0) <> Live c) ->
                             close w0 = (inl AttributeError, w0)).
  { intros w0 Hc. destruct w0 as [[ac dn sz ls gt mg td db rd ps pos cv] d].
    cbn [self canvas] in Hc. run_method. cbn.
    destruct cv as [| |c]; [| |now elim (Hc c)];
      destruct (Z.eqb pos 0); reflexivity. }
  split; [|apply Hdead].
  intros E. destruct (canvas (self w)) as [| |c] eqn:Ec.
  - rewrite Hdead in E by (intros c; rewrite Ec; discriminate). discriminate.
  - rewrite Hdead in E by (intros c; rewrite Ec; discriminate). discriminate.
  - rewrite (close_live w c Ec) in E. injection E as <-.
    split; [reflexivity|]. split; [eexists; eexists; split; reflexivity|].
    apply Hdead. intros c'. discriminate.
Qed.

(** X8.  [advance] without an open canvas: off the last slot it
    returns with the cursor one further; on the last slot it has
    incremented the cursor when the page end raises [AttributeError],
    and the cursor is left at [across * down], off the sheet. *)
Theorem advance_without_canvas (w : World) :
  (forall c, canvas (self w) <> Live c) ->
  let s := self w in
  let moved_on := mkWorld (set_position (position s + 1) s) (disk w) in
  (position s + 1 <> across s * down s -> advance w = (inr tt, moved_on))
  /\ (position s + 1 = across s * down s ->
      advance w = (inl AttributeError, moved_on)
      /\ ~ cursor_ok (self moved_on)).
Proof.
  intros Hc. destruct w as [[ac dn sz ls gt mg td db rd ps pos cv] d].
  cbn [self canvas] in Hc. cbv zeta. cbn [self disk position across down].
  run_method. cbn. split; intros Hp.
  - destruct (Z.eqb_spec (pos + 1) (ac * dn)); [contradiction|reflexivity].
  - destruct (Z.eqb_spec (pos + 1) (ac * dn)); [|contradiction].
    split; [destruct cv as [| |c]; [reflexivity|reflexivity|now elim (Hc c)]|].
    unfold cursor_ok. cbn. lia.
Qed.

End Calls.

(** * Further properties of whole documents *)

Lemma translations_app (a b : list entry) :
  translations (a ++ b) = translations b ++ translations a.
Proof.
  induction a as [|e a IH]; [now rewrite app_nil_r|].
  destruct e as [op|ops]; [destruct op|]; cbn [app translations];
    rewrite IH; try reflexivity.
  now rewrite app_assoc.
Qed.

Lemma translations_prelude (s : AveryLabel) (xy : Q * Q) :
  translations (prelude s xy) = [xy].
Proof. unfold prelude. destruct xy, (debug s); reflexivity. Qed.

Lemma translations_page_break (s : AveryLabel) :
  translations (page_break s) = [].
Proof. unfold page_break. destruct (Z.eqb _ _); reflexivity. Qed.

Lemma range_succ (k : nat) :
  range (Z.of_nat (S k)) = 0 :: map (fun i => i + 1) (range (Z.of_nat k)).
Proof.
  unfold range. rewrite !Nat2Z.id. cbn [seq map Z.of_nat].
  f_equal. rewrite <- seq_shift, !map_map.
  apply map_ext. intros i. lia.
Qed.

(** The slot after the cursor, counted round the sheet. *)
Lemma next_position_mod (s : AveryLabel) (i : Z) :
  cursor_ok s ->
  (next_position s + i) mod (across s * down s)
  = (position s + (i + 1)) mod (across s * down s).
Proof.
  unfold cursor_ok, next_position. intros Hok.
  destruct (Z.eqb_spec (position s + 1) (across s * down s)) as [E|E].
  - replace (position s + (i + 1)) with (i + 1 * (across s * down s)) by lia.
    rewrite Z.mod_add by lia. now rewrite Z.add_0_l.
  - f_equal. lia.
Qed.

(** [open] on any renderer: a new canvas replaces whatever was there. *)
Lemma open_live (name : string) (w : World) :
  open name w
  = (inr tt,
     mkWorld
       (set_canvas
          (Live (mkCanvas name (pagesize (self w))
                   (call (setLineCap 1) :: call (setLineJoin 1)
                    :: (if debug (self w)
                        then [call (setPageCompression 0)] else []))))
          (self w))
       (disk w)).
Proof.
  destruct w as [[ac dn sz ls gt mg td db rd ps pos cv] d].
  run_method. cbn. destruct db; reflexivity.
Qed.

Section Documents.

Context {V : Type}.

(** An iteration with well-behaved content, with what it sends spelled
    out: the prelude, one unit, [restoreState], and the page end of
    [advance] if the page is full. *)
Lemma render_step_shape (t : thing V) (args : list V) (w : World)
    (c : Canvas) :
  well_behaved t ->
  canvas (self w) = Live c ->
  across (self w) * down (self w) <> 0 ->
  let s := self w in
  exists xy u,
    topLeft s None None = inr xy
    /\ render_step t args w =
       (inr tt,
        mkWorld (moved (next_position s)
                   (sent c (page_break s ++ [call restoreState; u]
                            ++ prelude s xy)) s)
          (disk w))
    /\ translations [u] = []
    /\ (balanced t -> unrestored (flat [u]) = 0).
Proof.
  intros Hwb Hc Hcap s. subst s.
  destruct (topLeft_defined _ Hcap) as [xy Hxy].
  exists xy.
  destruct t as [f|name|]; [| |contradiction].
  - pose proof (render_step_callable f args w c xy Hc Hxy) as E.
    cbv zeta in E.
    specialize (Hwb (sent c (prelude (self w) xy)) (fst (size (self w)))
                  (snd (size (self w))) args).
    destruct (f _ _ _ _) as [ops r] eqn:Ef. cbn [fst snd] in Hwb.
    destruct Hwb as [Hr _]. subst r.
    exists (content ops). split; [exact Hxy|]. split; [|split].
    + rewrite E, sent_sent, app_assoc. reflexivity.
    + reflexivity.
    + intros Hb. cbn [flat flat_map ops_of]. rewrite app_nil_r.
      specialize (Hb (sent c (prelude (self w) xy)) (fst (size (self w)))
                    (snd (size (self w))) args).
      now rewrite Ef in Hb.
  - exists (call (doForm name)). split; [exact Hxy|]. split; [|split].
    + rewrite (render_step_str name args w c xy Hc Hxy). reflexivity.
    + reflexivity.
    + reflexivity.
Qed.

(** The loop over well-behaved content, read for where it drew: the
    renderer moved to the origins of the slots from the cursor on,
    round the sheet, in order; and balanced content leaves no graphics
    state unrestored. *)
Lemma render_loop_record {A : Type} (t : thing V) (g : A -> list V) :
  well_behaved t ->
  forall (items : list A) (w : World) (c : Canvas),
    canvas (self w) = Live c ->
    cursor_ok (self w) ->
    let s := self w in
    let cap := across s * down s in
    let n := Z.of_nat (length items) in
    exists c',
      for_each (fun a => render_step t (g a)) items w =
      (inr tt, mkWorld (moved ((position s + n) mod cap) c' s) (disk w))
      /\ filename c' = filename c
      /\ map inr (translations (log c')) =
         map inr (translations (log c))
         ++ map (fun i => topLeft s (Some ((position s + i) mod cap)) None)
              (range n)
      /\ (balanced t ->
          unrestored (flat (log c')) = unrestored (flat (log c))).
Proof.
  intros Hwb items.
  induction items as [|a items IH]; intros w c Hc Hok s cap n.
  - exists c. subst n s. cbn [length for_each Z.of_nat].
    unfold cursor_ok in Hok. fold cap in Hok.
    rewrite Z.add_0_r, Z.mod_small by lia.
    rewrite (moved_same _ _ Hc). change (range 0) with (@nil Z).
    cbn [map]. rewrite app_nil_r. destruct w. repeat split.
  - assert (Hcap : across (self w) * down (self w) <> 0)
      by (unfold cursor_ok in Hok; lia).
    destruct (render_step_shape t (g a) w c Hwb Hc Hcap)
      as (xy & u & Hxy & Estep & Hu & Hbal).
    fold s in Hxy, Estep.
    set (c1 := sent c (page_break s ++ [call restoreState; u]
                       ++ prelude s xy)) in *.
    set (w1 := mkWorld (moved (next_position s) c1 s) (disk w)) in *.
    destruct (IH w1 c1 eq_refl (next_position_on_sheet _ Hok))
      as (c' & Eloop & Hfn & Htr & Hun).
    change (across (self w1) * down (self w1)) with cap in *.
    change (position (self w1)) with (next_position s) in *.
    change (disk w1) with (disk w) in Eloop.
    exists c'. split; [|split; [exact Hfn|split]].
    + cbn [for_each]. unfold bind. rewrite Estep. fold w1. rewrite Eloop.
      subst n. rewrite (next_position_mod s _ Hok). fold cap.
      cbn [length]. rewrite Nat2Z.inj_succ. unfold Z.succ. reflexivity.
    + rewrite Htr. subst n. cbn [length]. rewrite range_succ.
      cbn [map]. rewrite map_map.
      unfold c1, sent. cbn [log].
      rewrite !translations_app, translations_prelude,
        translations_page_break.
      change (translations [call restoreState; u]) with (translations [u]).
      rewrite Hu, !app_nil_r, map_app, <- app_assoc. cbn [map app].
      f_equal. f_equal.
      * rewrite Z.add_0_r, Z.mod_small by exact Hok. symmetry. exact Hxy.
      * apply map_ext. intros i.
        change (topLeft (self w1) (Some ((next_position s + i) mod cap)) None)
          with (topLeft s (Some ((next_position s + i) mod cap)) None).
        unfold cap. now rewrite (next_position_mod s i Hok).
    + intros Hb. rewrite (Hun Hb). unfold c1, sent. cbn [log].
      destruct (prelude_accounts s xy (log c)) as (_ & _ & Hsaved).
      change [call restoreState; u] with ([call restoreState] ++ [u]).
      rewrite !flat_app, !unrestored_app, Hsaved, (Hbal Hb),
        unrestored_page_break.
      change (unrestored (flat [call restoreState])) with (-1). lia.
Qed.

(** X9.  [render] draws its units at the slots from the cursor on,
    in order and round the sheet: with well-behaved content, a cursor
    on the sheet at [p] and [k] units to draw, it returns with the
    cursor at [(p + k) mod capacity], and the origins it moved the
    canvas to are those of the slots [(p + i) mod capacity] for
    [i = 0 .. k - 1], after the ones it had moved to before. *)
Theorem units_drawn_in_slot_order (t : thing V) (args : list V) (k : Z)
    (w : World) (c : Canvas) :
  0 <= k -> well_behaved t ->
  canvas (self w) = Live c -> cursor_ok (self w) ->
  let s := self w in
  let cap := across s * down s in
  exists c',
    render t (Int k) args w
    = (inr tt, mkWorld (moved ((position s + k) mod cap) c' s) (disk w))
    /\ map inr (translations (log c')) =
       map inr (translations (log c))
       ++ map (fun i => topLeft s (Some ((position s + i) mod cap)) None)
            (range k).
Proof.
  intros Hk Hwb Hc Hok s cap.
  destruct (render_loop_record t (fun _ : Z => args) Hwb (range k) w c Hc Hok)
    as (c' & Eloop & _ & Htr & _).
  rewrite length_range in * by exact Hk.
  exists c'. split; [|exact Htr].
  rewrite (render_int t k args w c (well_behaved_content t Hwb) Hc).
  exact Eloop.
Qed.

(** X10.  [close] does not reset the cursor, so a document opened
    after it starts where the last one stopped: closing an open canvas
    with the cursor at [p], opening a new file and drawing one
    well-behaved unit puts that unit at the origin of slot [p] of the
    new document. *)
Theorem reopened_document_starts_at_cursor (t : thing V) (args : list V)
    (name : string) (w : World) (c : Canvas) :
  well_behaved t ->
  canvas (self w) = Live c -> cursor_ok (self w) ->
  let s := self w in
  exists doc c',
    (close >> open name >> render t (Int 1) args) w
    = (inr tt, mkWorld (moved (next_position s) c' s) (doc :: disk w))
    /\ filename c' = name
    /\ map inr (translations (log c'))
       = [topLeft s (Some (position s)) None].
Proof.
  intros Hwb Hc Hok s.
  pose proof (close_live w c Hc) as Eclose. cbv zeta in Eclose.
  set (doc := sent c _) in Eclose.
  set (w1 := mkWorld (set_canvas PyNone (self w)) (doc :: disk w)) in *.
  pose proof (open_live name w1) as Eopen.
  set (c0 := mkCanvas name _ _) in Eopen.
  set (w2 := mkWorld (set_canvas (Live c0) (self w1)) (disk w1)) in *.
  assert (Hok2 : cursor_ok (self w2)) by exact Hok.
  destruct (render_loop_record t (fun _ : Z => args) Hwb (range 1) w2 c0
              eq_refl Hok2)
    as (c' & Eloop & Hfn & Htr & _).
  change (across (self w2) * down (self w2))
    with (across s * down s) in *.
  change (position (self w2)) with (position s) in *.
  change (disk w2) with (doc :: disk w) in Eloop.
  change (Z.of_nat (length (range 1))) with 1 in *.
  exists doc, c'. split; [|split].
  - unfold bind at 1. rewrite Eclose. unfold bind at 1. rewrite Eopen.
    fold w2.
    rewrite (render_int t 1 args w2 c0 (well_behaved_content t Hwb) eq_refl).
    rewrite Eloop. f_equal.
    replace ((position s + 1) mod (across s * down s))
      with (next_position s).
    + reflexivity.
    + unfold next_position. unfold cursor_ok in Hok. fold s in Hok.
      destruct (Z.eqb_spec (position s + 1) (across s * down s)) as [E|E].
      * rewrite E, Z.mod_same by lia. reflexivity.
      * rewrite Z.mod_small by lia. reflexivity.
  - exact Hfn.
  - assert (Hnone : translations (log c0) = [])
      by (unfold c0; cbn [log]; destruct (debug (self w1)); reflexivity).
    rewrite Htr, Hnone. change (range 1) with [0]. cbn [map app].
    rewrite Z.add_0_r, Z.mod_small by exact Hok. reflexivity.
Qed.

(** X11.  Pagination holds for an iterator as for a count: [open],
    [render] of a callable over an iterator of [k] items, [close], from a
    cursor on slot 0, write one document of [ceil(k / c)] pages, full
    pages of [c] units and a last page with the remainder if there is
    one.  The extra arguments of [render] play no part: with an
    iterator, [render] does the same whatever they are, for any content
    and from any state. *)
Theorem iterator_pagination (f : callback V) (items other : list V)
    (s : AveryLabel) (name : string) (files : list Canvas) :
  0 < across s * down s -> position s = 0 -> well_behaved (Callable f) ->
  let c := across s * down s in
  let k := Z.of_nat (length items) in
  (exists doc,
     (open name >> render (Callable f) (Iter items) other >> close)
       (mkWorld s files)
     = (inr tt,
        mkWorld (set_canvas PyNone (set_position (k mod c) s)) (doc :: files))
     /\ page_ends (log doc) = ceil_div k c
     /\ page_units (log doc) =
        repeat c (Z.to_nat (k / c))
        ++ (if k mod c =? 0 then [] else [k mod c]))
  /\ (forall (t : thing V) (args args' : list V) (w : World),
        render t (Iter items) args w = render t (Iter items) args' w).
Proof.
  intros Hcap Hpos Hwb c k. split; [|reflexivity].
  destruct (open_fresh name (mkWorld s files))
    as (c0 & Eopen & _ & Hpag & Hends & _).
  cbn [self disk] in Eopen.
  set (w0 := mkWorld (set_canvas (Live c0) s) files) in *.
  assert (Hok : cursor_ok (self w0)).
  { unfold cursor_ok. cbn. fold c. rewrite Hpos. lia. }
  assert (Hopen : open_units (log c0) = position (self w0)).
  { unfold open_units. rewrite Hpag. cbn. now rewrite Hpos. }
  destruct (render_loop (Callable f) (fun chunk : V => [chunk]) Hwb items
              w0 c0 eq_refl Hok Hopen)
    as (c1 & Eloop & _ & Ho1 & Hu1 & He1).
  change (across (self w0) * down (self w0)) with c in *.
  change (position (self w0)) with (position s) in *.
  rewrite Hpos, Z.add_0_l in *. fold k in Eloop, Ho1, Hu1, He1.
  unfold page_units in Hu1 at 2. rewrite Hpag, Hends in *.
  cbn [fst app] in Hu1. rewrite Z.add_0_l in He1.
  set (w1 := mkWorld (moved (k mod c) c1 (self w0)) (disk w0)) in *.
  pose proof (close_live w1 c1 eq_refl) as Eclose. cbv zeta in Eclose.
  change (position (self w1)) with (k mod c) in Eclose.
  eexists. split; [|split].
  - unfold bind at 1. rewrite Eopen. fold w0. unfold bind at 1.
    assert (Erender : render (Callable f) (Iter items) other w0
                      = (inr tt, w1)) by exact Eloop.
    rewrite Erender, Eclose. reflexivity.
  - rewrite ceil_div_split by exact Hcap.
    unfold sent. cbn [log]. rewrite page_ends_app, He1.
    destruct (Z.eqb_spec (k mod c) 0) as [E|E].
    + change (page_ends [call save]) with 0. lia.
    + change (page_ends [call save; call showPage]) with 1. lia.
  - unfold page_units in *. unfold open_units in Ho1.
    destruct (Z.eqb_spec (k mod c) 0) as [E|E].
    + cbn [sent log app paginate account fst]. rewrite Hu1.
      now rewrite app_nil_r.
    + cbn [sent log app paginate account fst snd]. now rewrite Hu1, Ho1.
Qed.

(** X12.  A form name works with a count only: [render] of a string
    over an iterator passes the assertion and then raises [TypeError] at
    the first item, after it has saved the state and moved to the
    origin, with the cursor where it was and nothing written; over an
    iterator without items it returns and changes nothing. *)
Theorem form_name_with_iterator (name : string) (chunk : V)
    (rest args : list V) (w : World) (c : Canvas) (xy : Q * Q) :
  canvas (self w) = Live c ->
  topLeft (self w) None None = inr xy ->
  render (Str name) (Iter (chunk :: rest)) args w
  = (inl TypeError,
     mkWorld (set_canvas (Live (sent c (prelude (self w) xy))) (self w))
       (disk w))
  /\ render (Str name) (Iter []) args w = (inr tt, w).
Proof.
  destruct w as [[ac dn sz ls gt mg td db rd ps pos cv] d].
  cbn [self disk canvas]. intros -> Ht.
  assert (Ht' : forall cv',
             topLeft (mkAveryLabel ac dn sz ls gt mg td db rd ps pos cv')
               None None = inr xy) by (intros; exact Ht).
  clear Ht. split; [|reflexivity].
  unfold render, render_iterator. cbn [callable is_str orb negb for_each].
  run_method. cbn -[topLeft]. rewrite Ht'.
  destruct db; reflexivity.
Qed.

Lemma open_keeps_files (name : string) (w : World) :
  disk (snd (open name w)) = disk w.
Proof. now rewrite open_live. Qed.

Lemma render_iterator_keeps_files (func : thing V) (iterator : list V)
    (w : World) :
  disk (snd (render_iterator func iterator w)) = disk w.
Proof.
  unfold render_iterator, bind, getattr_canvas.
  destruct (canvas (self w)); [reflexivity| |];
    apply (for_each_keeps (fun w0 => disk w0 = disk w)
             (render_iterator_step func));
    try reflexivity;
    intros chunk w0 <-; apply render_iterator_step_keeps_files.
Qed.

Lemma render_keeps_files (t : thing V) (count : count_arg V)
    (args : list V) (w : World) :
  disk (snd (render t count args w)) = disk w.
Proof.
  unfold render. destruct (negb (callable t || is_str t)); [reflexivity|].
  destruct count as [n|iterator]; [|apply render_iterator_keeps_files].
  unfold bind, getattr_canvas.
  destruct (canvas (self w)); [reflexivity| |];
    apply (for_each_keeps (fun w0 => disk w0 = disk w)
             (fun _ : Z => render_step t args));
    try reflexivity;
    intros i w0 <-; apply render_step_keeps_files.
Qed.

Lemma close_dead (w : World) :
  (forall c, canvas (self w) <> Live c) -> close w = (inl AttributeError, w).
Proof.
  intros Hc. destruct w as [[ac dn sz ls gt mg td db rd ps pos cv] d].
  cbn [self canvas] in Hc. run_method. cbn.
  destruct cv as [| |c]; [| |now elim (Hc c)];
    destruct (Z.eqb pos 0); reflexivity.
Qed.

Lemma close_files (w : World) :
  disk (snd (close w)) = disk w
  \/ exists doc earlier,
       disk (snd (close w)) = doc :: disk w /\ log doc = call save :: earlier.
Proof.
  destruct (canvas (self w)) as [| |c] eqn:Ec.
  - left. rewrite (close_dead w); [reflexivity|].
    intros c. rewrite Ec. discriminate.
  - left. rewrite (close_dead w); [reflexivity|].
    intros c. rewrite Ec. discriminate.
  - right. rewrite (close_live w c Ec). eexists. eexists.
    split; reflexivity.
Qed.

(** X13.  Only [close] writes, and what is written stays: over any
    sequence of [open], [render], [render_iterator] and [close] calls,
    raising or not, the files are the earlier files with new documents
    in front, at most one for each [close], and the last thing each new
    document received is [save]. *)
Theorem only_close_writes (calls : list (method_call V)) (w : World) :
  exists docs,
    disk (run calls w) = docs ++ disk w
    /\ (length docs <= closes calls)%nat
    /\ Forall (fun doc => exists earlier, log doc = call save :: earlier) docs.
Proof.
  revert w. induction calls as [|m calls IH]; intros w.
  - exists []. repeat split; [cbn; lia|constructor].
  - cbn [run]. destruct (IH (snd (perform m w))) as (docs & Hd & Hl & Hf).
    assert (Hsame : disk (snd (perform m w)) = disk w ->
                    exists docs0,
                      disk (run calls (snd (perform m w))) = docs0 ++ disk w
                      /\ (length docs0 <= closes (m :: calls))%nat
                      /\ Forall (fun doc => exists earlier,
                                   log doc = call save :: earlier) docs0).
    { intros E. exists docs. rewrite Hd, E. split; [reflexivity|].
      split; [|exact Hf]. unfold closes in *. cbn [List.filter].
      destruct m; cbn [length]; lia. }
    destruct m as [name|t count args|func iterator|]; cbn [perform] in *.
    + apply Hsame, open_keeps_files.
    + apply Hsame, render_keeps_files.
    + apply Hsame, render_iterator_keeps_files.
    + destruct (close_files w) as [E|(doc & earlier & E & Hlog)];
        [now apply Hsame|].
      exists (docs ++ [doc]). rewrite Hd, E, <- app_assoc.
      split; [reflexivity|]. split.
      * rewrite length_app. unfold closes in *. cbn [List.filter length].
        lia.
      * apply Forall_app. split; [exact Hf|].
        constructor; [now exists earlier|constructor].
Qed.

(** X14.  Balanced content gives a balanced document: when the content
    returns and restores every graphics state it saves, the document of
    [open], [render] of [k] units and [close] has no graphics state left
    unrestored, for any cursor on the sheet. *)
Theorem balanced_content_balanced_document (t : thing V) (args : list V)
    (k : Z) (s : AveryLabel) (name : string) (files : list Canvas) :
  0 <= k -> cursor_ok s -> well_behaved t -> balanced t ->
  exists doc w',
    (open name >> render t (Int k) args >> close) (mkWorld s files)
    = (inr tt, w')
    /\ disk w' = doc :: files
    /\ unrestored (flat (log doc)) = 0.
Proof.
  intros Hk Hok Hwb Hb.
  pose proof (open_live name (mkWorld s files)) as Eopen.
  cbn [self disk] in Eopen.
  set (c0 := mkCanvas name _ _) in Eopen.
  set (w0 := mkWorld (set_canvas (Live c0) s) files) in *.
  assert (H0 : unrestored (flat (log c0)) = 0)
    by (unfold c0; cbn [log]; destruct (debug s); reflexivity).
  destruct (render_loop_record t (fun _ : Z => args) Hwb (range k) w0 c0
              eq_refl Hok)
    as (c1 & Eloop & _ & _ & Hun).
  specialize (Hun Hb). rewrite H0 in Hun.
  set (w1 := mkWorld _ _) in Eloop.
  pose proof (close_live w1 c1 eq_refl) as Eclose. cbv zeta in Eclose.
  eexists. eexists. split.
  { unfold bind at 1. rewrite Eopen. fold w0. unfold bind.
    rewrite (render_int t k args w0 c0 (well_behaved_content t Hwb) eq_refl).
    rewrite Eloop, Eclose. reflexivity. }
  split; [reflexivity|].
  unfold sent. cbn [log].
  change (call save :: (if position (self w1) =? 0 then []
                        else [call showPage]))
    with ([call save] ++ (if position (self w1) =? 0 then []
                          else [call showPage])).
  rewrite <- app_assoc, !flat_app, !unrestored_app, Hun.
  destruct (position (self w1) =? 0); reflexivity.
Qed.

End Documents.

(** * The further properties at work on the template of Scenario C *)

Lemma draw_scaled_well_behaved : well_behaved (Callable draw_scaled).
Proof.
  intros c width height args. split; [reflexivity|].
  cbn. intuition discriminate.
Defined.

Lemma draw_scaled_balanced : balanced (Callable draw_scaled).
Proof. intros c width height args. reflexivity. Defined.

Lemma fresh_C_on_sheet : cursor_ok (self fresh_C).
Proof. unfold cursor_ok. cbn. lia. Defined.

Lemma render_counts_add_witness :
  (render (Callable draw_qr) (Int 3) [] >> render (Callable draw_qr) (Int 4) [])
    fresh_C
  = render (Callable draw_qr) (Int (3 + 4)) [] fresh_C.
Proof.
  exact (render_counts_add (Callable draw_qr) 3 4 [] fresh_C
           ltac:(lia) ltac:(lia)).
Defined.

Lemma render_without_canvas_witness :
  render (Callable draw_qr) (Int 0) []
    (mkWorld (init_from scenario_C false []) [])
  = (inl AttributeError, mkWorld (init_from scenario_C false []) []).
Proof.
  exact (proj1 (render_without_canvas (Callable draw_qr) (Int 0) []
                  (mkWorld (init_from scenario_C false []) []) eq_refl)
           eq_refl).
Defined.

Lemma close_after_close_raises_witness :
  canvas (self (snd (close fresh_C))) = PyNone
  /\ (exists doc earlier,
        disk (snd (close fresh_C)) = doc :: disk fresh_C
        /\ log doc = call save :: earlier)
  /\ close (snd (close fresh_C)) = (inl AttributeError, snd (close fresh_C)).
Proof.
  exact (proj1 (close_after_close_raises fresh_C (snd (close fresh_C)))
           eq_refl).
Defined.

Lemma advance_without_canvas_witness :
  advance (mkWorld (set_position 9 (init_from scenario_C false [])) [])
  = (inl AttributeError,
     mkWorld (set_position 10 (init_from scenario_C false [])) [])
  /\ ~ cursor_ok (set_position 10 (init_from scenario_C false [])).
Proof.
  exact (proj2 (advance_without_canvas
                  (mkWorld (set_position 9 (init_from scenario_C false [])) [])
                  (fun c => ltac:(discriminate)))
           eq_refl).
Defined.

Lemma units_drawn_in_slot_order_witness :
  exists c',
    render (Callable draw_qr) (Int 3) [] fresh_C
    = (inr tt, mkWorld (moved 3 c' (self fresh_C)) [])
    /\ map inr (translations (log c'))
       = ([inr (18, 612)%Q; inr (18, 468)%Q; inr (18, 324)%Q]
          : list (result (Q * Q))).
Proof.
  exact (units_drawn_in_slot_order (Callable draw_qr) [] 3 fresh_C
           (mkCanvas "out.pdf" LETTER [])
           ltac:(lia) draw_qr_well_behaved eq_refl fresh_C_on_sheet).
Defined.

Lemma reopened_document_starts_at_cursor_witness :
  exists doc c',
    (close >> open "next.pdf" >> render (Callable draw_qr) (Int 1) [])
      (mkWorld (set_position 3 (self fresh_C)) [])
    = (inr tt, mkWorld (moved 4 c' (self fresh_C)) [doc])
    /\ filename c' = "next.pdf"
    /\ map inr (translations (log c'))
       = ([inr (18, 180)%Q] : list (result (Q * Q))).
Proof.
  exact (reopened_document_starts_at_cursor (Callable draw_qr) [] "next.pdf"
           (mkWorld (set_position 3 (self fresh_C)) [])
           (mkCanvas "out.pdf" LETTER [])
           draw_qr_well_behaved eq_refl ltac:(unfold cursor_ok; cbn; lia)).
Defined.

Lemma iterator_pagination_witness :
  (exists doc,
     (open "out.pdf" >> render (Callable draw_qr) (Iter [1; 2; 3]) [] >> close)
       (mkWorld (init_from scenario_C false []) [])
     = (inr tt,
        mkWorld
          (set_canvas PyNone (set_position 3 (init_from scenario_C false [])))
          [doc])
     /\ page_ends (log doc) = 1
     /\ page_units (log doc) = [3])
  /\ (forall (t : thing Z) (args args' : list Z) (w : World),
        render t (Iter [1; 2; 3]) args w = render t (Iter [1; 2; 3]) args' w).
Proof.
  exact (iterator_pagination draw_qr [1; 2; 3] []
           (init_from scenario_C false []) "out.pdf" []
           ltac:(reflexivity) eq_refl draw_qr_well_behaved).
Defined.

Lemma form_name_with_iterator_witness :
  render (Str "form") (Iter [1; 2]) [] fresh_C
  = (inl TypeError,
     mkWorld
       (set_canvas
          (Live (sent (mkCanvas "out.pdf" LETTER [])
                   (prelude (self fresh_C) (18, 612)%Q)))
          (self fresh_C)) [])
  /\ render (Str "form") (Iter []) ([] : list Z) fresh_C = (inr tt, fresh_C).
Proof.
  exact (form_name_with_iterator "form" 1 [2] [] fresh_C
           (mkCanvas "out.pdf" LETTER []) (18, 612)%Q eq_refl eq_refl).
Defined.

Lemma balanced_content_balanced_document_witness :
  exists doc w',
    (open "out.pdf" >> render (Callable draw_scaled) (Int 11) [] >> close)
      (mkWorld (init_from scenario_C false []) [])
    = (inr tt, w')
    /\ disk w' = [doc]
    /\ unrestored (flat (log doc)) = 0.
Proof.
  exact (balanced_content_balanced_document (Callable draw_scaled) [] 11
           (init_from scenario_C false []) "out.pdf" []
           ltac:(lia) ltac:(unfold cursor_ok; cbn; lia)
           draw_scaled_well_behaved draw_scaled_balanced).
Defined.

(** * The geometry in Python's own numbers *)

Lemma and_then_inl {A B : Type} (r : result A) (k : A -> result B) (e : exn) :
  Py.and_then r k = inl e ->
  r = inl e \/ exists a, r = inr a /\ k a = inl e.
Proof. destruct r as [e'|a]; cbn; [intros [= ->]; now left|eauto]. Qed.

(** An arithmetic operation raises nothing but [OverflowError]. *)
Lemma arith_raises (on_int : Z -> Z -> Z)
    (on_float : PrimFloat.float -> PrimFloat.float -> PrimFloat.float)
    (a b : Py.num) (e : exn) :
  Py.arith on_int on_float a b = inl e -> e = OverflowError.
Proof.
  unfold Py.arith, Py.float_of_int.
  destruct a as [x|f], b as [y|g]; try discriminate;
    destruct (PrimFloat.is_infinity _); congruence.
Qed.

(** What [topLeft] does once the column and the row are known raises
    nothing but [OverflowError]. *)
Lemma origin_raises (s : Py.AveryLabel) (x y : Z) (e : exn) :
  Py.topLeft s (Some x) (Some y) = inl e -> e = OverflowError.
Proof.
  unfold Py.topLeft. cbn [Py.and_then]. intros H.
  repeat (apply and_then_inl in H;
          let v := fresh "v" in
          destruct H as [H|(v & _ & H)];
          [exact (arith_raises _ _ _ _ _ H)|cbv beta in H]).
  discriminate.
Qed.

(** Splitting the index is all that [topLeft] does before it computes
    the origin of the column and the row. *)
Lemma topLeft_split (s : Py.AveryLabel) (x : option Z) (y : option Z) :
  let x0 := match x with None => Py.position s | Some x => x end in
  Py.topLeft s x y =
  match y with
  | Some y0 => Py.topLeft s (Some x0) (Some y0)
  | None =>
      if (if Py.topDown s then Py.down s else Py.across s) =? 0
      then inl ZeroDivisionError
      else if Py.topDown s
           then Py.topLeft s (Some (x0 / Py.down s)) (Some (x0 mod Py.down s))
           else Py.topLeft s (Some (x0 mod Py.across s))
                  (Some (x0 / Py.across s))
  end.
Proof.
  unfold Py.topLeft, divmod. destruct y as [y0|]; [reflexivity|].
  destruct (Py.topDown s).
  - destruct (Py.down s =? 0); reflexivity.
  - destruct (Py.across s =? 0); reflexivity.
Qed.

(** X3.  In Python's own arithmetic [topLeft] raises nothing but
    [ZeroDivisionError] and [OverflowError].  It raises
    [ZeroDivisionError] exactly when it has to split the index (no [y]
    passed) by an attribute that is 0: [down] in top-down order,
    [across] in left-right order. *)
Theorem topLeft_exceptions (s : Py.AveryLabel) (x y : option Z) :
  (forall e, Py.topLeft s x y = inl e ->
             e = ZeroDivisionError \/ e = OverflowError)
  /\ (Py.topLeft s x y = inl ZeroDivisionError
      <-> y = None
          /\ (if Py.topDown s then Py.down s else Py.across s) = 0).
Proof.
  rewrite (topLeft_split s x y). cbv zeta.
  destruct y as [y0|].
  - split.
    + intros e H. right. exact (origin_raises _ _ _ _ H).
    + split; [|now intros [? _]].
      intros H. apply origin_raises in H. discriminate.
  - destruct (Z.eqb_spec (if Py.topDown s then Py.down s else Py.across s) 0)
      as [E|E].
    + split; [intros e [= <-]; now left|]. split; auto.
    + split.
      * intros e H. right.
        destruct (Py.topDown s); exact (origin_raises _ _ _ _ H).
      * split; [|now intros [_ ?]].
        intros H. destruct (Py.topDown s); apply origin_raises in H;
          discriminate.
Qed.

Lemma spacedb_sound (data : Py.LabelInfo) (i j : Z) (p q : Q * Q) :
  Py.spacedb (Py.labels_vertical data)
    (Qred (Py.exact (fst (Py.label_size data))
           + Py.exact (fst (Py.gutter_size data))))
    (Qred (Py.exact (snd (Py.label_size data))
           + Py.exact (snd (Py.gutter_size data))))
    i j p q = true ->
  Py.spaced data i j p q.
Proof.
  unfold Py.spacedb, Py.spaced. rewrite !andb_true_iff.
  intros (((H1 & H2) & H3) & H4). cbv zeta. repeat split; intros Hc.
  - rewrite (proj2 (Z.ltb_lt _ _) Hc) in H1.
    apply negb_true_iff in H1. apply Qnot_le_lt. intros Hle.
    apply Qle_bool_iff in Hle. congruence.
  - rewrite (proj2 (Z.eqb_eq _ _) Hc) in H2.
    apply Qle_bool_iff in H2. now rewrite Qred_correct in H2.
  - rewrite (proj2 (Z.ltb_lt _ _) Hc) in H3.
    apply negb_true_iff in H3. apply Qnot_le_lt. intros Hle.
    apply Qle_bool_iff in Hle. congruence.
  - rewrite (proj2 (Z.eqb_eq _ _) Hc) in H4.
    apply Qle_bool_iff in H4. now rewrite Qred_correct in H4.
Qed.

Lemma point_origin (s : Py.AveryLabel) (i : Z) (p : Q * Q) :
  Py.point s i = Some p ->
  exists x y,
    Py.topLeft s (Some i) None = inr (x, y)
    /\ Py.finite x = true /\ Py.finite y = true
    /\ p = (Py.exact x, Py.exact y).
Proof.
  unfold Py.point. destruct (Py.topLeft s (Some i) None) as [e|[x y]];
    [discriminate|].
  cbn [fst snd]. destruct (Py.finite x) eqn:Ex, (Py.finite y) eqn:Ey;
    try discriminate.
  intros [= <-]. exists x, y. repeat split; assumption.
Qed.

Lemma catalogue_spaced :
  Forall (fun kv => Py.all_spaced (snd kv) = true) Py.labelInfo_items.
Proof.
  unfold Py.labelInfo_items.
  repeat (apply Forall_cons; split; [vm_compute; reflexivity|]).
  apply Forall_nil. exact I.
Qed.

(** C6, as the code has it.  For every template of the catalogue and
    all valid slot indices under top-down order, the numbers [topLeft]
    returns are finite, [x] grows strictly with the column and [y]
    falls strictly with the row; from one column to the next [x] grows
    by [labelWidth + columnGutter], and from one row to the next [y]
    falls by [labelHeight + rowGutter], up to the rounding of binary64
    (within a billionth of a unit), not exactly. *)
Theorem catalogue_spacing (label : string) (dbg : bool)
    (data : Py.LabelInfo) (i j : Z) :
  Py.labelInfo !! label = Some data ->
  0 <= i < Py.labels_horizontal data * Py.labels_vertical data ->
  0 <= j < Py.labels_horizontal data * Py.labels_vertical data ->
  exists s xi yi xj yj,
    Py.__init__ label dbg = inr s
    /\ Py.topLeft s (Some i) None = inr (xi, yi)
    /\ Py.topLeft s (Some j) None = inr (xj, yj)
    /\ Py.finite xi = true /\ Py.finite yi = true
    /\ Py.finite xj = true /\ Py.finite yj = true
    /\ Py.spaced data i j (Py.exact xi, Py.exact yi)
         (Py.exact xj, Py.exact yj).
Proof.
  intros Hl Hi Hj. unfold Py.__init__. rewrite Hl.
  unfold Py.labelInfo in Hl. apply elem_of_list_to_map_2 in Hl.
  pose proof (proj1 (Forall_forall _ _) catalogue_spaced _ Hl) as Hall.
  cbn [snd] in Hall. unfold Py.all_spaced in Hall.
  unfold Py.init_from, Py.and_then in *.
  destruct (Py.add _ _) as [e|sep]; [discriminate|].
  set (s0 := Py.mkAveryLabel _ _ _ _ _ _ _ false _ _ _) in Hall.
  cbv zeta in Hall. rewrite forallb_forall in Hall.
  assert (Hin : forall k,
             0 <= k < Py.labels_horizontal data * Py.labels_vertical data ->
             In (k, Py.point s0 k)
               (map (fun i => (i, Py.point s0 i))
                  (range (Py.across s0 * Py.down s0)))).
  { intros k Hk. apply in_map_iff. exists k. split; [reflexivity|].
    now apply in_range. }
  pose proof (Hall _ (Hin i Hi)) as Hpi. cbn beta iota in Hpi.
  destruct (Py.point s0 i) as [p|] eqn:Ep; [|discriminate].
  rewrite forallb_forall in Hpi.
  pose proof (Hpi _ (Hin j Hj)) as Hpj. cbn beta iota in Hpj.
  destruct (Py.point s0 j) as [q|] eqn:Eq; [|discriminate].
  apply spacedb_sound in Hpj.
  destruct (point_origin _ _ _ Ep) as (xi & yi & Ti & Fxi & Fyi & ->).
  destruct (point_origin _ _ _ Eq) as (xj & yj & Tj & Fxj & Fyj & ->).
  eexists. exists xi, yi, xj, yj.
  split; [reflexivity|]. split; [exact Ti|]. split; [exact Tj|].
  repeat (split; [assumption|]). exact Hpj.
Qed.

(** C6, as claimed, fails in the arithmetic of the code.  On
    ["avery5167"] the origins of slots 20 and 40, in the adjacent
    columns 1 and 2, are [x = 169.19999999999999] and
    [x = 316.80000000000001]: they differ by [7 / 2^48] more than
    [labelWidth + columnGutter], and the difference Python computes,
    [147.60000000000002], is not the sum it computes,
    [147.59999999999999].  And positive dimensions do not make [x] grow
    strictly: on a template with a margin of [2^60] and labels one unit
    wide, columns 0 and 1 have the same [x]. *)
Lemma spacing_not_exact_in_binary64 :
  exists s x1 y1 x2 y2 difference sum,
    Py.__init__ "avery5167" false = inr s
    /\ Py.topLeft s (Some 20) None = inr (x1, y1)
    /\ Py.topLeft s (Some 40) None = inr (x2, y2)
    /\ (Py.exact x2 - Py.exact x1
        - (Py.exact (fst (Py.label_size Py.avery5167))
           + Py.exact (fst (Py.gutter_size Py.avery5167)))
        == 7 # 281474976710656)%Q
    /\ Py.sub x2 x1 = inr (Py.of_float difference)
    /\ Py.add (fst (Py.label_size Py.avery5167))
         (fst (Py.gutter_size Py.avery5167)) = inr (Py.of_float sum)
    /\ PrimFloat.eqb difference sum = false
    /\ exists s' x y y',
         Py.init_from Py.absorbing false = inr s'
         /\ Py.topLeft s' (Some 0) None = inr (x, y)
         /\ Py.topLeft s' (Some 1) None = inr (x, y').
Proof.
  do 7 eexists.
  split; [vm_compute; reflexivity|].
  split; [vm_compute; reflexivity|].
  split; [vm_compute; reflexivity|].
  split; [vm_compute; reflexivity|].
  split; [vm_compute; reflexivity|].
  split; [vm_compute; reflexivity|].
  split; [vm_compute; reflexivity|].
  do 4 eexists.
  split; [vm_compute; reflexivity|].
  split; vm_compute; reflexivity.
Qed.

Lemma catalogue_spacing_witness :
  exists s xi yi xj yj,
    Py.__init__ "avery5167" false = inr s
    /\ Py.topLeft s (Some 20) None = inr (xi, yi)
    /\ Py.topLeft s (Some 41) None = inr (xj, yj)
    /\ Py.finite xi = true /\ Py.finite yi = true
    /\ Py.finite xj = true /\ Py.finite yj = true
    /\ Py.spaced Py.avery5167 20 41 (Py.exact xi, Py.exact yi)
         (Py.exact xj, Py.exact yj).
Proof.
  exact (catalogue_spacing "avery5167" false Py.avery5167 20 41
           ltac:(vm_compute; reflexivity) ltac:(cbn; lia) ltac:(cbn; lia)).
Defined.
